(** * Sentiment-Analysis-Google-Scraper: a shallow embedding of the
    dedup + cache-aside sentiment pipeline

    The development follows the Python sources:
    - [service/ReviewCleaner.py]       (module [ReviewCleaner]),
    - [service/ReviewScraper.py]       (module [ReviewScraper]),
    - [service/SentimentAnalyzer.py]   (module [SentimentAnalyzer]),
    - [service/DatabaseManager.py]     (module [DatabaseManager]),
    - [Sentiment.py]                   (module [Sentiment]).

    Python values are modelled as the code has them: a [str] is a list of
    Unicode code points, a [float] is an IEEE-754 binary64 number (Rocq's
    primitive floats, which compute exactly what CPython computes), an
    [int] is a [Z], dictionaries with a fixed set of keys are records whose
    optional keys are [option]s (or [slot]s, where the code tells an absent
    key from one that holds [None]), the dedup index is a [gmap] of [gset]s and
    the review dictionaries that [filter_reviews] updates in place live in a
    heap of objects.  Exceptions are values of type [exn]; a function that
    can raise returns a [result]. *)

From Stdlib Require Import ZArith Floats Ascii String.
From stdpp Require Import base tactics option list gmap sets strings pretty.

Set Default Proof Using "Type".
Set Warnings "-inexact-float,-register-all,-clear-no-such-hyp,-level-tolerance".
Local Open Scope Z_scope.

(* ===================================================================== *)
(** * Part I: definitions                                                 *)
(* ===================================================================== *)

(** ** Python strings *)

Module PyStr.

(** A Python [str]: its code points, in order.  [len] is [length]. *)
Definition str := list N.

(** The code points of an ASCII literal. *)
Definition u (s : string) : str :=
  map (fun a => N_of_ascii a) (list_ascii_of_string s).

(** The double quote, which a literal cannot hold. *)
Definition dquote : str := [34%N].

(** [str.isspace] on one code point: the characters CPython's
    [Py_UNICODE_ISSPACE] accepts. *)
Definition isspace (c : N) : bool :=
  ((9 <=? c) && (c <=? 13) || (28 <=? c) && (c <=? 32)
   || (c =? 133) || (c =? 160) || (c =? 5760)
   || (8192 <=? c) && (c <=? 8202)
   || (c =? 8232) || (c =? 8233) || (c =? 8239) || (c =? 8287)
   || (c =? 12288))%N.

Fixpoint lstrip (s : str) : str :=
  match s with
  | c :: s' => if isspace c then lstrip s' else s
  | [] => []
  end.

Definition rstrip (s : str) : str := rev (lstrip (rev s)).

(** [s.strip()] *)
Definition strip (s : str) : str := rstrip (lstrip s).

(** [s.split()]: the maximal runs of non-space characters.  [cur] is the
    run being read, reversed. *)
Fixpoint split_go (cur : str) (s : str) : list str :=
  match s with
  | [] => match cur with [] => [] | _ => [rev cur] end
  | c :: s' =>
      if isspace c
      then match cur with
           | [] => split_go [] s'
           | _ => rev cur :: split_go [] s'
           end
      else split_go (c :: cur) s'
  end.

Definition split (s : str) : list str := split_go [] s.

(** [sep.join(parts)] *)
Fixpoint join (sep : str) (parts : list str) : str :=
  match parts with
  | [] => []
  | [p] => p
  | p :: ps => p ++ sep ++ join sep ps
  end.

(** [s.startswith(p)] *)
Fixpoint startswith (s p : str) : bool :=
  match p, s with
  | [], _ => true
  | _ :: _, [] => false
  | a :: p', b :: s' => (a =? b)%N && startswith s' p'
  end.

(** [w in s]: [w] occurs in [s] as a contiguous run. *)
Fixpoint contains (s w : str) : bool :=
  startswith s w ||
  match s with
  | [] => false
  | _ :: s' => contains s' w
  end.

(** [s.replace(old, new)] for a non-empty [old]: the occurrences of [old]
    are replaced from the left, without overlap.  [skip] counts the
    characters of a matched occurrence that are still to be dropped. *)
Fixpoint replace_go (old new : str) (skip : nat) (s : str) : str :=
  match s with
  | [] => []
  | c :: s' =>
      match skip with
      | S k => replace_go old new k s'
      | O =>
          if startswith s old
          then new ++ replace_go old new (length old - 1) s'
          else c :: replace_go old new 0 s'
      end
  end.

Definition replace (old new s : str) : str := replace_go old new 0 s.

(** [x in l] for a list of strings *)
Definition str_in (x : str) (l : list str) : bool :=
  bool_decide (x ∈ l).

(** [str(n)] for an [int] *)
Definition str_of_int (n : Z) : str := u (pretty n).

(** [f"{n:03d}"] for a non-negative [n] *)
Definition str_of_nat_03d (n : nat) : str :=
  let d := u (pretty n) in
  repeat 48%N (3 - length d)%nat ++ d.

End PyStr.
Export PyStr.

(** ** Python floats and the integer arithmetic around them *)

Module PyFloat.

(** An [int] as an exact (not yet rounded) binary number. *)
Definition Z2SF (z : Z) : spec_float :=
  match z with
  | Z0 => S754_zero false
  | Zpos p => S754_finite false p 0
  | Zneg p => S754_finite true p 0
  end.

(** [a / b] on two [int]s: the quotient rounded once, to nearest-even.
    [None] stands for the exception CPython raises instead of returning an
    infinity ([OverflowError]: integer division result too large for a
    float) or dividing by zero. *)
Definition int_truediv (a b : Z) : option float :=
  match SFdiv prec emax (Z2SF a) (Z2SF b) with
  | S754_infinity _ | S754_nan => None
  | q => Some (SF2Prim q)
  end.

(** [float(n)] for an [int] that a float holds exactly. *)
Definition float_of_int (n : Z) : float :=
  SF2Prim (binary_normalize prec emax n 0 false).

(** [min(a, b)] and [max(a, b)]: CPython keeps the first argument unless
    the second compares strictly below (above) it. *)
Definition py_min (a b : float) : float := if (b <? a)%float then b else a.
Definition py_max (a b : float) : float := if (a <? b)%float then b else a.

(** [n / d] rounded to the nearest integer, ties to even ([0 <= n], [0 < d]). *)
Definition half_even_div (n d : Z) : Z :=
  let q := n / d in
  let r := n mod d in
  match 2 * r ?= d with
  | Lt => q
  | Gt => q + 1
  | Eq => if Z.even q then q else q + 1
  end.

(** The exact value [m * 2^e], times 100, rounded half-even to an integer:
    the digits of the value at two decimals. *)
Definition centi (m : positive) (e : Z) : Z :=
  if 0 <=? e then Zpos m * 2 ^ e * 100
  else half_even_div (Zpos m * 100) (2 ^ (- e)).

Definition signed (s : bool) (k : Z) : spec_float :=
  match k with
  | Zpos p => S754_finite s p 0
  | _ => S754_zero s
  end.

(** [round(x, 2)]: the exact value of [x] is rounded half-even to two
    decimals, and that decimal is rounded to the nearest float.  Zeros,
    infinities and NaN round to themselves. *)
Definition round2 (x : float) : float :=
  match Prim2SF x with
  | S754_finite s m e =>
      SF2Prim (SFdiv prec emax (signed s (centi m e)) (Z2SF 100))
  | _ => x
  end.

Definition two_digits (k : Z) : str :=
  if k <? 10 then 48%N :: str_of_int k else str_of_int k.

Definition sign_str (s : bool) : str := if s then u "-" else [].

(** [f"{x:.2f}"] *)
Definition format_2f (x : float) : str :=
  match Prim2SF x with
  | S754_zero s => sign_str s ++ u "0.00"
  | S754_finite s m e =>
      let k := centi m e in
      sign_str s ++ str_of_int (k / 100) ++ u "." ++ two_digits (k mod 100)
  | S754_infinity s => sign_str s ++ u "inf"
  | S754_nan => u "nan"
  end.

(** [datetime.now()] is read as a number of microseconds.  A [Clock] gives
    the successive readings a call makes: [clk 0] is its first reading. *)
Definition Clock := nat -> Z.

Definition later (k : nat) (clk : Clock) : Clock := fun n => clk (k + n)%nat.

(** [(t1 - t0).total_seconds() * 1000]: the microseconds are divided by
    [10**6] as integers.  A [timedelta] is far below the range of a float,
    so the quotient exists; the default is never taken for clock values. *)
Definition elapsed_ms (t0 t1 : Z) : float :=
  (default infinity (int_truediv (t1 - t0) 1000000) * 1000)%float.

End PyFloat.
Export PyFloat.

(** ** Exceptions and values *)

Module Py.

(** The exception classes the sources raise or let through.  [MySQLError]
    is [mysql.connector.Error]; every class derives from [Exception]. *)
Inductive exn_class :=
  | KeyError | TypeError | ValueError | OverflowError | JSONDecodeError
  | MySQLError | OtherException.

(** An exception: its class and [str(e)]. *)
Record exn := Exn { exn_cls : exn_class; exn_str : str }.

(** The outcome of a call that can raise. *)
Inductive result (A : Type) :=
  | Ok (a : A)
  | Raise (e : exn).
Arguments Ok {A} a.
Arguments Raise {A} e.

Definition bind {A B} (r : result A) (k : A -> result B) : result B :=
  match r with
  | Ok a => k a
  | Raise e => Raise e
  end.

(** [try: r  except Exception as e: h e] *)
Definition try_except {A} (r : result A) (h : exn -> result A) : result A :=
  match r with
  | Ok a => Ok a
  | Raise e => h e
  end.

(** A decoded JSON document, as [json.loads] returns it. *)
Inductive json :=
  | JNull
  | JBool (b : bool)
  | JInt (z : Z)
  | JFloat (f : float)
  | JStr (s : str)
  | JList (l : list json)
  | JDict (d : list (str * json)).

Fixpoint assoc (k : str) (d : list (str * json)) : option json :=
  match d with
  | [] => None
  | (k', v) :: d' => if bool_decide (k' = k) then Some v else assoc k d'
  end.

(** [repr(k)] of a key without quotes or escapes in it *)
Definition repr_key (k : str) : str := u "'" ++ k ++ u "'".

(** [v[k]] for a string key [k] *)
Definition getitem (v : json) (k : str) : result json :=
  match v with
  | JDict d =>
      match assoc k d with
      | Some x => Ok x
      | None => Raise (Exn KeyError (repr_key k))
      end
  | JList _ =>
      Raise (Exn TypeError (u "list indices must be integers or slices, not str"))
  | JStr _ =>
      Raise (Exn TypeError (u "string indices must be integers, not 'str'"))
  | JInt _ => Raise (Exn TypeError (u "'int' object is not subscriptable"))
  | JFloat _ => Raise (Exn TypeError (u "'float' object is not subscriptable"))
  | JBool _ => Raise (Exn TypeError (u "'bool' object is not subscriptable"))
  | JNull => Raise (Exn TypeError (u "'NoneType' object is not subscriptable"))
  end.

(** [len(v)] where [v] is a list *)
Definition json_len (v : json) : option nat :=
  match v with
  | JList l => Some (length l)
  | _ => None
  end.

End Py.
Export Py.

Notation "x <- r ;; k" := (bind r (fun x => k))
  (at level 100, r at next level, right associativity).

(** ** service/SentimentAnalyzer.py *)

Module SentimentAnalyzer.

(** The dictionary both paths return.  A key that only one path sets is an
    [option]: [None] is the absent key.  [reviewer_name] and [review_at]
    hold [None] or a string when present.  [timestamp] keeps the clock
    reading whose [isoformat()] the code stores. *)
Record SentimentResult := {
  sr_id : option str;
  sr_review_text : str;
  sr_rating : Z;
  sr_reviewer_name : option (option str);
  sr_review_at : option (option str);
  sr_sentiment : json;
  sr_sentiment_score : json;
  sr_themes : json;
  sr_analysis_reasons : json;
  sr_ai_suggestions : json;
  sr_processing_time_ms : float;
  sr_timestamp : Z;
  sr_source : str;
  sr_is_google : option bool;
  sr_note : option str
}.

Definition POSITIVE_strong : list str :=
  [u "luar biasa"; u "sangat bagus"; u "excellent"; u "perfect";
   u "terbaik"; u "sempurna"; u "istimewa"].
Definition POSITIVE_medium : list str :=
  [u "bagus"; u "baik"; u "enak"; u "puas"; u "senang"; u "recommended";
   u "mantap"; u "ramah"; u "cepat"; u "bersih"; u "nyaman"].
Definition POSITIVE_weak : list str :=
  [u "lumayan"; u "cukup"; u "ok"; u "oke"].

Definition NEGATIVE_strong : list str :=
  [u "sangat buruk"; u "terrible"; u "parah banget";
   u "mengecewakan sekali"; u "worst"].
Definition NEGATIVE_medium : list str :=
  [u "buruk"; u "jelek"; u "kecewa"; u "lambat"; u "lama"; u "mahal";
   u "kotor"; u "tidak enak"; u "kurang"; u "rusak"].
Definition NEGATIVE_weak : list str :=
  [u "tidak"; u "kurang"; u "biasa aja"].

Definition THEMES : list (str * list str) :=
  [(u "Kualitas Produk",
     [u "makanan"; u "rasa"; u "enak"; u "menu"; u "produk"; u "lezat";
      u "fresh"]);
   (u "Kualitas Pelayanan",
     [u "pelayanan"; u "service"; u "ramah"; u "staff"; u "karyawan";
      u "sopan"]);
   (u "Harga & Value",
     [u "harga"; u "mahal"; u "murah"; u "value"; u "terjangkau"]);
   (u "Kecepatan Layanan",
     [u "cepat"; u "lama"; u "tunggu"; u "antri"; u "lambat"]);
   (u "Kebersihan", [u "bersih"; u "kotor"; u "higienis"; u "rapi"]);
   (u "Suasana",
     [u "suasana"; u "tempat"; u "nyaman"; u "lokasi"; u "atmosfer"])].

(** [[w for w in ws if w in text]] *)
Definition hits (text : str) (ws : list str) : list str :=
  List.filter (contains text) ws.

(** [sum(k for w in ws if w in text)] for an [int] weight [k] *)
Definition sum_int (k : Z) (text : str) (ws : list str) : Z :=
  fold_left Z.add (map (fun _ => k) (hits text ws)) 0.

(** [sum(0.3 for w in ws if w in text)]: the additions are float
    additions, from the left.  With no hit Python's sum is the [int] 0,
    which the enclosing expression turns into the float 0.0. *)
Definition sum_weak (text : str) (ws : list str) : float :=
  fold_left PrimFloat.add (map (fun _ => 0.3%float) (hits text ws)) 0%float.

(** [(sum(2 ...) + sum(1 ...) + sum(0.3 ...)) / 5], then [min(_, 1.0)].
    The two integer sums are added as integers (at most 25) before the
    float sum is added. *)
Definition lexicon_score (text : str) (strong medium weak : list str) : float :=
  py_min
    ((float_of_int (sum_int 2 text strong + sum_int 1 text medium)
      + sum_weak text weak) / 5)%float
    1%float.

Definition pos_score (text : str) : float :=
  lexicon_score text POSITIVE_strong POSITIVE_medium POSITIVE_weak.
Definition neg_score (text : str) : float :=
  lexicon_score text NEGATIVE_strong NEGATIVE_medium NEGATIVE_weak.

Definition overflow_error : exn :=
  Exn OverflowError (u "integer division result too large for a float").

(** [text_score + rating_score].  [(rating - 3) / 2] divides two [int]s
    and raises [OverflowError] when the quotient is no float. *)
Definition final_score (text : str) (rating : Z) : result float :=
  let text_score := ((pos_score text - neg_score text) * 0.7)%float in
  match int_truediv (rating - 3) 2 with
  | Some q => Ok (text_score + q * 0.3)%float
  | None => Raise overflow_error
  end.

Inductive Sentiment := Positive | Negative | Neutral.

Definition sentiment_str (s : Sentiment) : str :=
  match s with
  | Positive => u "Positive"
  | Negative => u "Negative"
  | Neutral => u "Neutral"
  end.

(** The [if final_score > 0.2 ... elif final_score < -0.2 ... else] chain *)
Definition classify (final : float) : Sentiment :=
  if (0.2 <? final)%float then Positive
  else if (final <? -0.2)%float then Negative
  else Neutral.

(** [[theme for theme, keywords in THEMES.items()
      if any(kw in text for kw in keywords)]], or ['Pengalaman Umum'] *)
Definition extract_themes (text : str) : list str :=
  let found :=
    map fst (List.filter (fun tk => existsb (contains text) (snd tk)) THEMES) in
  match found with
  | [] => [u "Pengalaman Umum"]
  | _ => found
  end.

Definition reasons (sentiment : Sentiment) (rating : Z) (pos neg : float)
  : list str :=
  match sentiment with
  | Positive =>
      [u "Review menunjukkan apresiasi tinggi (positif: " ++ format_2f pos ++ u ")"]
      ++ (if 4 <=? rating
          then [u "Rating " ++ str_of_int rating
                ++ u "/5 mengkonfirmasi kepuasan pelanggan"]
          else [])
      ++ [u "Tone keseluruhan positif dan merekomendasikan"]
  | Negative =>
      [u "Review mengandung keluhan signifikan (negatif: " ++ format_2f neg ++ u ")"]
      ++ (if rating <=? 2
          then [u "Rating " ++ str_of_int rating
                ++ u "/5 menunjukkan ketidakpuasan serius"]
          else [])
      ++ [u "Customer mengekspresikan kekecewaan yang perlu ditindaklanjuti"]
  | Neutral =>
      [u "Review menunjukkan pengalaman standar";
       u "Rating " ++ str_of_int rating ++ u "/5 berada di level netral";
       u "Balance antara positif (" ++ format_2f pos ++ u ") dan negatif ("
         ++ format_2f neg ++ u ")"]
  end.

(** The suggestion texts start with a few non-ASCII code points, given
    here as the source file holds them. *)
Definition suggestions (sentiment : Sentiment) (themes : list str) : list str :=
  match sentiment with
  | Negative =>
      [[240; 376; 353; 168]%N
         ++ u " URGENT: Follow-up customer untuk resolve issue"]
      ++ (if str_in (u "Kualitas Pelayanan") themes
          then [[240; 376; 8220; 8249]%N
                  ++ u " Training dan evaluasi ulang tim service"]
          else [])
      ++ (if str_in (u "Kecepatan Layanan") themes
          then [[226; 353; 161]%N
                  ++ u " Optimasi workflow untuk reduce waiting time"]
          else [])
      ++ [[240; 376; 8217; 176]%N
            ++ u " Tawarkan kompensasi untuk restore trust"]
  | Positive =>
      [[240; 376; 8217; 338]%N
         ++ u " Kirim thank you message untuk strengthen relationship";
       [240; 376; 8220; 162]%N ++ u " Jadikan testimoni untuk marketing";
       [226; 173]%N ++ u " Maintain excellent quality yang sudah diberikan"]
  | Neutral =>
      [[240; 376; 8220; 352]%N
         ++ u " Monitor trend untuk identify improvement";
       [240; 376; 381; 175]%N
         ++ u " Proactive engagement untuk understand expectations";
       [240; 376; 8217; 161]%N
         ++ u " Follow-up survey untuk detailed feedback"]
  end.

Definition json_strs (l : list str) : json := JList (map JStr l).

Section Analyzer.

(** [str.lower] follows the Unicode tables; it is a parameter here. *)
Variable lower : str -> str.

(** [json.loads], the decoder of the standard library. *)
Variable json_loads : str -> result json.

(** [fallback_analysis(review, rating, review_id, error_msg)].  [clk]
    gives its three readings of [datetime.now()]. *)
Definition fallback_analysis (clk : Clock) (review : str) (rating : Z)
    (review_id : option str) (error_msg : str) : result SentimentResult :=
  let start_time := clk 0%nat in
  let text := lower review in
  let pos := pos_score text in
  let neg := neg_score text in
  final <- final_score text rating ;;
  let sentiment := classify final in
  let themes := extract_themes text in
  let processing_time := elapsed_ms start_time (clk 1%nat) in
  Ok {| sr_id := review_id;
        sr_review_text := review;
        sr_rating := rating;
        sr_reviewer_name := None;
        sr_review_at := None;
        sr_sentiment := JStr (sentiment_str sentiment);
        sr_sentiment_score :=
          JFloat (round2 (py_max (-1)%float (py_min 1%float final)));
        sr_themes := json_strs (take 5 themes);
        sr_analysis_reasons := json_strs (reasons sentiment rating pos neg);
        sr_ai_suggestions := json_strs (take 5 (suggestions sentiment themes));
        sr_processing_time_ms := round2 processing_time;
        sr_timestamp := clk 2%nat;
        sr_source := u "rule_based_fallback";
        sr_is_google := None;
        sr_note :=
          Some (match error_msg with
                | [] => u "Rule-based analysis"
                | _ => u "Fallback used: " ++ error_msg
                end) |}.

(** What [client.complete(...)] followed by
    [response.choices[0].message.content] yields for a prompt: an exception
    (network failure, timeout, a response without that content), or the
    content string. *)
Inductive completion :=
  | CompleteRaises (e : exn)
  | Content (content : str).

(** The module-level [client]: [None] when no token is configured or the
    client could not be built. *)
Definition Client := option (str -> completion).

Definition nl : str := [10%N].
Definition quoted (s : str) : str := dquote ++ s ++ dquote.

(** The f-string [prompt] *)
Definition build_prompt (review : str) (rating : Z) : str :=
  let ind := u "            " in
  u "Analisis review pelanggan berikut secara mendalam:" ++ nl
  ++ nl
  ++ ind ++ u "REVIEW: " ++ quoted review ++ nl
  ++ ind ++ u "RATING: " ++ str_of_int rating ++ u "/5" ++ nl
  ++ nl
  ++ ind ++ u "Output JSON dengan format:" ++ nl
  ++ ind ++ u "{" ++ nl
  ++ ind ++ quoted (u "sentiment") ++ u ": " ++ quoted (u "Positive")
         ++ u " | " ++ quoted (u "Neutral") ++ u " | "
         ++ quoted (u "Negative") ++ u "," ++ nl
  ++ ind ++ quoted (u "sentiment_score") ++ u ": <-1.0 to 1.0>," ++ nl
  ++ ind ++ quoted (u "themes") ++ u ": [<maksimal 5 tema spesifik>]," ++ nl
  ++ ind ++ quoted (u "analysis_reasons")
         ++ u ": [<minimal 3 alasan detail>]," ++ nl
  ++ ind ++ quoted (u "ai_suggestions")
         ++ u ": [<minimal 3 rekomendasi actionable>]" ++ nl
  ++ ind ++ u "}" ++ nl
  ++ nl
  ++ ind ++ u "ATURAN:" ++ nl
  ++ ind ++ u "1. Sentiment dari tone review (rating hanya referensi)" ++ nl
  ++ ind ++ u "2. Sentiment Score: Positive (0.3 to 1.0), Neutral (-0.3 to 0.3), Negative (-1.0 to -0.3)" ++ nl
  ++ ind ++ u "3. Themes: Kualitas Produk, Pelayanan, Harga, Kecepatan, Kebersihan, dll" ++ nl
  ++ ind ++ u "4. Analysis Reasons: Jelaskan detail kenapa sentiment tersebut" ++ nl
  ++ ind ++ u "5. AI Suggestions: Konkret dan actionable untuk business" ++ nl
  ++ nl
  ++ ind ++ u "Output HANYA JSON valid, tanpa markdown atau teks tambahan.".

(** The code-fence clean-up of the model's answer *)
Definition strip_fences (content : str) : str :=
  if startswith content (u "```json")
  then strip (replace (u "```") [] (replace (u "```json") [] content))
  else if startswith content (u "```")
  then strip (replace (u "```") [] content)
  else content.

Definition not_initialized : exn :=
  Exn OtherException
      (u "GitHub Models client not initialized. Check GITHUB_TOKEN.").

(** The body of the [try] block of [analyze_with_github]. *)
Definition remote_analysis (client : Client) (clk : Clock) (review : str)
    (rating : Z) (review_id : option str) (reviewer_name review_at : option str)
    (is_google : bool) : result SentimentResult :=
  let start_time := clk 0%nat in
  match client with
  | None => Raise not_initialized
  | Some complete =>
      match complete (build_prompt review rating) with
      | CompleteRaises e => Raise e
      | Content raw =>
          let content := strip_fences (strip raw) in
          result <- json_loads content ;;
          let processing_time := elapsed_ms start_time (clk 1%nat) in
          sentiment <- getitem result (u "sentiment") ;;
          sentiment_score <- getitem result (u "sentiment_score") ;;
          themes <- getitem result (u "themes") ;;
          analysis_reasons <- getitem result (u "analysis_reasons") ;;
          ai_suggestions <- getitem result (u "ai_suggestions") ;;
          Ok {| sr_id := review_id;
                sr_review_text := review;
                sr_rating := rating;
                sr_reviewer_name := Some reviewer_name;
                sr_review_at := Some review_at;
                sr_sentiment := sentiment;
                sr_sentiment_score := sentiment_score;
                sr_themes := themes;
                sr_analysis_reasons := analysis_reasons;
                sr_ai_suggestions := ai_suggestions;
                sr_processing_time_ms := round2 processing_time;
                sr_timestamp := clk 2%nat;
                sr_source := u "github_models";
                sr_is_google := Some is_google;
                sr_note := None |}
      end
  end.

(** [analyze_with_github(review, rating, review_id, reviewer_name,
    review_at, is_google)].  [clk] gives the readings of the clock the
    remote path makes, [fclk] those of the fallback when it runs. *)
Definition analyze_with_github (client : Client) (clk fclk : Clock)
    (review : str) (rating : Z) (review_id : option str)
    (reviewer_name review_at : option str) (is_google : bool)
  : result SentimentResult :=
  try_except
    (remote_analysis client clk review rating review_id reviewer_name
                     review_at is_google)
    (fun e => fallback_analysis fclk review rating review_id (exn_str e)).

End Analyzer.

End SentimentAnalyzer.
Export SentimentAnalyzer.

(** ** service/DatabaseManager.py *)

Module DatabaseManager.

(** A row of [sentiment_analysis] as [get_analysis] returns it, the JSON
    columns decoded.  The two DECIMAL columns are kept in hundredths. *)
Record Row := {
  row_id : str;
  row_review_text : str;
  row_rating : Z;
  row_reviewer_name : option str;
  row_review_at : option str;
  row_sentiment : str;
  row_sentiment_score : Z;
  row_themes : json;
  row_analysis_reasons : json;
  row_ai_suggestions : json;
  row_processing_time_ms : option Z;
  row_source : option str;
  row_analyzed_at : option str;
  row_updated_at : option str
}.

(** What a statement sent to the server yields: its result, or a
    [mysql.connector.Error]. *)
Inductive sql (A : Type) :=
  | SqlOk (a : A)
  | SqlError (msg : str).
Arguments SqlOk {A} a.
Arguments SqlError {A} msg.

(** The MySQL server, at its interface: whether a connection can be
    opened, the SELECT of [get_analysis] and the INSERT ... ON DUPLICATE
    KEY UPDATE of [save_analysis] (followed by its commit). *)
Class Database (DB : Type) := {
  db_connect : DB -> bool;
  db_select : DB -> str -> sql (option Row);
  db_upsert : DB -> SentimentResult -> sql DB
}.

Section Manager.
Context {DB : Type} `{Database DB}.

(** [get_analysis(review_id)] *)
Definition get_analysis (db : DB) (review_id : str) : option Row :=
  if db_connect db then
    match db_select db review_id with
    | SqlOk row => row
    | SqlError _ => None
    end
  else None.

(** [is_analyzed(review_id, review_text)] *)
Definition is_analyzed (db : DB) (review_id review_text : str) : bool :=
  match get_analysis db review_id with
  | Some existing => bool_decide (row_review_text existing = review_text)
  | None => false
  end.

(** [save_analysis(result)]: [False] without a connection; with one, the
    tuple of values is built from the dictionary ([result['reviewer_name']]
    raises [KeyError] when the key is absent, and only
    [mysql.connector.Error] is caught), then the statement is executed. *)
Definition save_analysis (db : DB) (r : SentimentResult) : result (bool * DB) :=
  if db_connect db then
    match sr_reviewer_name r with
    | None => Raise (Exn KeyError (repr_key (u "reviewer_name")))
    | Some _ =>
        match db_upsert db r with
        | SqlOk db' => Ok (true, db')
        | SqlError _ => Ok (false, db)
        end
    end
  else Ok (false, db).

End Manager.

End DatabaseManager.
Export DatabaseManager.

(** ** Sentiment.py: the smart batch endpoint *)

Module Sentiment.

(** One entry of the request's [reviews] array. *)
Record ReviewIn := {
  in_id : option str;
  in_full_review : option str;
  in_rating : option Z;
  in_reviewer_name : option str;
  in_review_date : option str
}.

(** The request body [data]. *)
Record BatchRequest := {
  rq_reviews : option (list ReviewIn);
  rq_parallel_processing : option bool;
  rq_force_reanalyze : option bool
}.

(** An entry of [reviews_to_analyze]. *)
Record AnalysisRequest := {
  ar_review : str;
  ar_rating : Z;
  ar_id : str;
  ar_reviewer_name : option str;
  ar_review_at : option str
}.

(** An entry of [results]: a stored row marked [from_cache = True], or a
    new result marked [saved_to_db = saved] and [from_cache = False]. *)
Inductive result_entry :=
  | FromCache (existing : Row)
  | Analyzed (r : SentimentResult) (saved_to_db : bool).

Definition entry_from_cache (e : result_entry) : bool :=
  match e with
  | FromCache _ => true
  | Analyzed _ _ => false
  end.

Record skip_entry := { skip_id : str; skip_reason : str }.

(** An entry of [errors]: keyed by index in the parallel branch, by id in
    the sequential one. *)
Inductive error_entry :=
  | ErrIndex (index : nat) (error : str)
  | ErrId (id : str) (error : str).

Record BatchOutcome := {
  total_reviews : nat;
  processed : nat;
  newly_analyzed : nat;
  from_cache : nat;
  failed : nat;
  processing_time_total_ms : float;
  results : list result_entry;
  skipped : option (list skip_entry);
  errors : option (list error_entry)
}.

(** The response: [{"success": False, "error": ...}] or the outcome. *)
Inductive response :=
  | Failure (error : str)
  | Success (o : BatchOutcome).

(** [l if l else None] *)
Definition or_none {A} (l : list A) : option (list A) :=
  match l with
  | [] => None
  | _ => Some l
  end.

(** The lists the first loop fills. *)
Record Pending := {
  p_results : list result_entry;
  p_skipped : list skip_entry;
  p_to_analyze : list AnalysisRequest
}.

Definition review_id_of (idx : nat) (rev : ReviewIn) : str :=
  default (u "REV" ++ str_of_nat_03d (idx + 1)) (in_id rev).

Definition review_text_of (rev : ReviewIn) : str :=
  default [] (in_full_review rev).

Definition request_of (idx : nat) (rev : ReviewIn) : AnalysisRequest :=
  {| ar_review := review_text_of rev;
     ar_rating := default 3 (in_rating rev);
     ar_id := review_id_of idx rev;
     ar_reviewer_name := in_reviewer_name rev;
     ar_review_at := in_review_date rev |}.

Definition already_analyzed (review_id : str) : skip_entry :=
  {| skip_id := review_id; skip_reason := u "already_analyzed" |}.

Section Endpoint.
Context {DB : Type} `{Database DB}.

(** The task the endpoint awaits for the [i]-th entry of
    [reviews_to_analyze]: its result or the exception it raises. *)
Variable engine : nat -> AnalysisRequest -> result SentimentResult.

Definition to_analyze (acc : Pending) (rq : AnalysisRequest) : Pending :=
  {| p_results := p_results acc;
     p_skipped := p_skipped acc;
     p_to_analyze := p_to_analyze acc ++ [rq] |}.

(** One iteration of the first loop. *)
Definition check_review (db : DB) (force_reanalyze : bool) (idx : nat)
    (rev : ReviewIn) (acc : Pending) : Pending :=
  let review_id := review_id_of idx rev in
  let review_text := review_text_of rev in
  match review_text with
  | [] => acc
  | _ :: _ =>
      if negb force_reanalyze && is_analyzed db review_id review_text then
        match get_analysis db review_id with
        | Some existing =>
            {| p_results := p_results acc ++ [FromCache existing];
               p_skipped := p_skipped acc ++ [already_analyzed review_id];
               p_to_analyze := p_to_analyze acc |}
        | None => to_analyze acc (request_of idx rev)
        end
      else to_analyze acc (request_of idx rev)
  end.

(** [for idx, rev in enumerate(reviews)], from index [idx] on *)
Fixpoint check_reviews (db : DB) (force_reanalyze : bool) (idx : nat)
    (reviews : list ReviewIn) (acc : Pending) : Pending :=
  match reviews with
  | [] => acc
  | rev :: rest =>
      check_reviews db force_reanalyze (S idx) rest
                    (check_review db force_reanalyze idx rev acc)
  end.

(** What the second loop carries: the database and the two lists. *)
Record Progress := {
  g_db : DB;
  g_results : list result_entry;
  g_errors : list error_entry
}.

(** [asyncio.gather] over the tasks, with [return_exceptions=True] *)
Fixpoint gather (idx : nat) (todo : list AnalysisRequest)
  : list (result SentimentResult) :=
  match todo with
  | [] => []
  | rq :: rest => engine idx rq :: gather (S idx) rest
  end.

(** The loop over [completed] of the parallel branch.  An exception of
    [save_analysis] is not caught inside the loop: it ends it.  The result
    is the state reached and the exception that ended the loop, if any. *)
Fixpoint store_completed (idx : nat) (completed : list (result SentimentResult))
    (st : Progress) : Progress * option exn :=
  match completed with
  | [] => (st, None)
  | Raise e :: rest =>
      store_completed (S idx) rest
        {| g_db := g_db st;
           g_results := g_results st;
           g_errors := g_errors st ++ [ErrIndex idx (exn_str e)] |}
  | Ok r :: rest =>
      match save_analysis (g_db st) r with
      | Raise e => (st, Some e)
      | Ok saved =>
          store_completed (S idx) rest
            {| g_db := snd saved;
               g_results := g_results st ++ [Analyzed r (fst saved)];
               g_errors := g_errors st |}
      end
  end.

(** The sequential branch: every iteration is a [try] of its own. *)
Fixpoint analyze_each (idx : nat) (todo : list AnalysisRequest)
    (st : Progress) : Progress :=
  match todo with
  | [] => st
  | rq :: rest =>
      let attempt :=
        r <- engine idx rq ;;
        saved <- save_analysis (g_db st) r ;;
        Ok (r, saved) in
      analyze_each (S idx) rest
        match attempt with
        | Ok (r, saved) =>
            {| g_db := snd saved;
               g_results := g_results st ++ [Analyzed r (fst saved)];
               g_errors := g_errors st |}
        | Raise e =>
            {| g_db := g_db st;
               g_results := g_results st;
               g_errors := g_errors st ++ [ErrId (ar_id rq) (exn_str e)] |}
        end
  end.

(** A run of the endpoint: the response, the database afterwards and the
    requests the engine was called with, in order. *)
Record Run := {
  run_response : response;
  run_db : DB;
  run_engine_calls : list AnalysisRequest
}.

(** [smart_batch_analyze(data, is_google)] where the
    [print(reviews_to_analyze)] between the two phases returns;
    [smart_batch_endpoint] below adds the case in which it raises.
    [is_google] is part of [engine].  [clk] gives the two readings of the
    clock. *)
Definition smart_batch_analyze (clk : Clock) (db : DB) (data : BatchRequest)
  : Run :=
  let start_time := clk 0%nat in
  let reviews := default [] (rq_reviews data) in
  let parallel := default true (rq_parallel_processing data) in
  let force_reanalyze := default false (rq_force_reanalyze data) in
  match reviews with
  | [] =>
      {| run_response := Failure (u "reviews array required");
         run_db := db;
         run_engine_calls := [] |}
  | _ :: _ =>
      let p := check_reviews db force_reanalyze 0 reviews
                 {| p_results := []; p_skipped := []; p_to_analyze := [] |} in
      let st0 := {| g_db := db; g_results := p_results p; g_errors := [] |} in
      let finished :=
        if parallel
        then store_completed 0 (gather 0 (p_to_analyze p)) st0
        else (analyze_each 0 (p_to_analyze p) st0, None) in
      match finished with
      | (st, Some e) =>
          (* the outer [except Exception] *)
          {| run_response := Failure (exn_str e);
             run_db := g_db st;
             run_engine_calls := p_to_analyze p |}
      | (st, None) =>
          let total_time := elapsed_ms start_time (clk 1%nat) in
          {| run_response :=
               Success
                 {| total_reviews := length reviews;
                    processed := length (g_results st);
                    newly_analyzed := length (p_to_analyze p);
                    from_cache := length (p_skipped p);
                    failed := length (g_errors st);
                    processing_time_total_ms := round2 total_time;
                    results := g_results st;
                    skipped := or_none (p_skipped p);
                    errors := or_none (g_errors st) |};
             run_db := g_db st;
             run_engine_calls := p_to_analyze p |}
      end
  end.

(** [smart_batch_analyze(data, is_google)] in full.  [print_requests] says
    what [print(reviews_to_analyze)] does on this server: it returns
    ([None]) or raises, as [repr] does on a rating with more digits than
    the interpreter converts to a string, or the standard output on a
    character it cannot encode.  The statement stands inside the outer
    [try]: an exception ends the call with a failure, before the engine is
    called and with the database as it was. *)
Definition smart_batch_endpoint
    (print_requests : list AnalysisRequest -> option exn)
    (clk : Clock) (db : DB) (data : BatchRequest) : Run :=
  let reviews := default [] (rq_reviews data) in
  let force_reanalyze := default false (rq_force_reanalyze data) in
  match reviews with
  | [] => smart_batch_analyze clk db data
  | _ :: _ =>
      let p := check_reviews db force_reanalyze 0 reviews
                 {| p_results := []; p_skipped := []; p_to_analyze := [] |} in
      match print_requests (p_to_analyze p) with
      | Some e =>
          {| run_response := Failure (exn_str e);
             run_db := db;
             run_engine_calls := [] |}
      | None => smart_batch_analyze clk db data
      end
  end.

End Endpoint.

(** The tasks the endpoint creates: [analyze_with_github] on the fields of
    the request.  [clocks i] gives the clock readings of the [i]-th task. *)
Definition github_engine (lower : str -> str) (json_loads : str -> result json)
    (client : Client) (clocks : nat -> Clock * Clock) (is_google : bool)
  : nat -> AnalysisRequest -> result SentimentResult :=
  fun i rq =>
    analyze_with_github lower json_loads client
      (fst (clocks i)) (snd (clocks i))
      (ar_review rq) (ar_rating rq) (Some (ar_id rq))
      (ar_reviewer_name rq) (ar_review_at rq) is_google.

End Sentiment.
Export Sentiment.

(** ** service/ReviewCleaner.py *)

Module ReviewCleaner.

(** What a dictionary has under a key: nothing (the key is absent), the
    value [None] (a JSON [null]), or a value. *)
Inductive slot (A : Type) :=
  | Absent
  | Null
  | Held (a : A).
Arguments Absent {A}.
Arguments Null {A}.
Arguments Held {A} a.

(** [d.get(k)]: [None] for an absent key and for a key that holds
    [None]. *)
Definition get {A} (v : slot A) : option A :=
  match v with
  | Held a => Some a
  | Absent | Null => None
  end.

(** [d.get(k, default)]: the default stands in for an absent key only; a
    key that holds [None] gives [None]. *)
Definition get_or {A} (v : slot A) (fallback : A) : option A :=
  match v with
  | Absent => Some fallback
  | Null => None
  | Held a => Some a
  end.

(** A review dictionary as the scraping actor delivers it.  The four text
    keys are absent, [None] or a string.  The two lists of images are read
    through [get] and their truth value only, which do not tell an absent
    key from [None]: there [None] stands for both. *)
Record RawReview := {
  r_text : slot str;
  r_reviewText : slot str;
  r_reviewImageUrls : option (list str);
  r_photos : option (list str);
  r_reviewerId : slot str;
  r_publishedAtDate : slot str
}.

(** The review dictionaries are objects: a list of reviews is a list of
    references, and a store gives the dictionary each one denotes. *)
Definition loc := nat.
Definition Heap := loc -> RawReview.

(** [review["text"] = t] *)
Definition set_text (review : RawReview) (t : str) : RawReview :=
  {| r_text := Held t;
     r_reviewText := r_reviewText review;
     r_reviewImageUrls := r_reviewImageUrls review;
     r_photos := r_photos review;
     r_reviewerId := r_reviewerId review;
     r_publishedAtDate := r_publishedAtDate review |}.

Definition heap_set (h : Heap) (l : loc) (review : RawReview) : Heap :=
  fun l' => if decide (l' = l) then review else h l'.

(** [a or b] on optional strings: the first one that is a non-empty
    string. *)
Definition or_str (a : option str) (b : str) : str :=
  match a with
  | Some (c :: s) => c :: s
  | _ => b
  end.

(** [review.get("text") or review.get("reviewText") or ""] *)
Definition text_of (review : RawReview) : str :=
  or_str (get (r_text review)) (or_str (get (r_reviewText review)) []).

Definition truthy_list {A} (l : option (list A)) : bool :=
  match l with
  | Some (_ :: _) => true
  | _ => false
  end.

(** [is_valid_review(review)] *)
Definition is_valid_review (review : RawReview) : bool :=
  (3 <=? length (strip (text_of review)))%nat.

(** [clean_review_text(text)] *)
Definition clean_review_text (text : str) : str :=
  match text with
  | [] => []
  | _ =>
      let text := join (u " ") (split text) in
      let text := replace (u "(Translated by Google)") [] text in
      let text := replace (u "(Original)") [] text in
      strip text
  end.

(** [has_only_images(review)] *)
Definition has_only_images (review : RawReview) : bool :=
  let has_images :=
    truthy_list (r_reviewImageUrls review) || truthy_list (r_photos review) in
  let has_valid_text := (3 <=? length (strip (text_of review)))%nat in
  has_images && negb has_valid_text.

Record CleaningStats := {
  total : nat;
  valid : nat;
  no_text : nat;
  only_images : nat;
  too_short : nat
}.

(** The state of the loop of [filter_reviews]: the store, [valid_reviews]
    and [filtered_stats]. *)
Record Cleaning := {
  c_heap : Heap;
  c_valid_reviews : list loc;
  c_stats : CleaningStats
}.

Definition count_only_images (st : CleaningStats) : CleaningStats :=
  {| total := total st; valid := valid st; no_text := no_text st;
     only_images := only_images st + 1; too_short := too_short st |}.
Definition count_no_text (st : CleaningStats) : CleaningStats :=
  {| total := total st; valid := valid st; no_text := no_text st + 1;
     only_images := only_images st; too_short := too_short st |}.
Definition count_too_short (st : CleaningStats) : CleaningStats :=
  {| total := total st; valid := valid st; no_text := no_text st;
     only_images := only_images st; too_short := too_short st + 1 |}.
Definition count_valid (st : CleaningStats) : CleaningStats :=
  {| total := total st; valid := valid st + 1; no_text := no_text st;
     only_images := only_images st; too_short := too_short st |}.

(** What an iteration decides for the dictionary it reads. *)
Inductive verdict :=
  | OnlyImages
  | NoText
  | TooShort
  | Valid (cleaned : str).

Definition judge (review : RawReview) : verdict :=
  if has_only_images review then OnlyImages
  else
    let text := strip (text_of review) in
    match text with
    | [] => NoText
    | _ =>
        if (length text <? 3)%nat then TooShort
        else Valid (clean_review_text text)
    end.

(** One iteration of the loop, on the reference [l]. *)
Definition filter_step (c : Cleaning) (l : loc) : Cleaning :=
  let review := c_heap c l in
  match judge review with
  | OnlyImages =>
      {| c_heap := c_heap c; c_valid_reviews := c_valid_reviews c;
         c_stats := count_only_images (c_stats c) |}
  | NoText =>
      {| c_heap := c_heap c; c_valid_reviews := c_valid_reviews c;
         c_stats := count_no_text (c_stats c) |}
  | TooShort =>
      {| c_heap := c_heap c; c_valid_reviews := c_valid_reviews c;
         c_stats := count_too_short (c_stats c) |}
  | Valid cleaned =>
      {| c_heap := heap_set (c_heap c) l (set_text review cleaned);
         c_valid_reviews := c_valid_reviews c ++ [l];
         c_stats := count_valid (c_stats c) |}
  end.

(** [filter_reviews(reviews)]: the store afterwards, [valid_reviews] and
    [stats]. *)
Definition filter_reviews (h : Heap) (reviews : list loc) : Cleaning :=
  fold_left filter_step reviews
    {| c_heap := h;
       c_valid_reviews := [];
       c_stats := {| total := length reviews; valid := 0; no_text := 0;
                     only_images := 0; too_short := 0 |} |}.

End ReviewCleaner.
Export ReviewCleaner.

(** ** service/ReviewScraper.py *)

Module ReviewScraper.

(** [scraped_review_ids]: for each place id, the set of review ids seen. *)
Abbreviation Index := (gmap str (gset str)).

(** The cache file: absent, unreadable as JSON, or holding what
    [json.dump] wrote, a list of ids for each place id. *)
Inductive File :=
  | NoFile
  | Corrupt
  | Saved (data : gmap str (list str)).

(** What happens when the cache file is written: the write succeeds,
    [open] raises and the file stays as it is, or [json.dump] raises on
    the file [open] has already truncated. *)
Inductive write_mode := WriteOk | OpenRaises | DumpRaises.

(** The file system, as the scraper sees it. *)
Record FS := { fs_write : write_mode; fs_file : File }.

(** The fields of a scraper object that change: the index in memory, and
    the file system its cache file lives in. *)
Record Scraper := { scraped_review_ids : Index; fs : FS }.

(** [{k: list(v) for k, v in scraped_review_ids.items()}] *)
Definition serialize (idx : Index) : gmap str (list str) := elements <$> idx.

(** [_load_cache()]: a missing or unreadable file gives the empty index. *)
Definition _load_cache (f : FS) : Index :=
  match fs_file f with
  | Saved data => list_to_set <$> data
  | NoFile | Corrupt => ∅
  end.

(** [_save_cache()]: an exception of the write is printed, not raised. *)
Definition _save_cache (s : Scraper) : Scraper :=
  {| scraped_review_ids := scraped_review_ids s;
     fs := {| fs_write := fs_write (fs s);
              fs_file :=
                match fs_write (fs s) with
                | WriteOk => Saved (serialize (scraped_review_ids s))
                | OpenRaises => fs_file (fs s)
                | DumpRaises => Corrupt
                end |} |}.

Section Scrape.

(** The built-in [hash] on strings, fixed for the life of a process. *)
Variable hash : str -> Z.

(** [f"{v}"] for a value that is [None] or a string *)
Definition format_value (v : option str) : str :=
  match v with
  | None => u "None"
  | Some s => s
  end.

(** [None[:50]] *)
Definition none_not_subscriptable : exn :=
  Exn TypeError (u "'NoneType' object is not subscriptable").

(** [_get_review_id(review)]: the default of [get] covers an absent key
    only, so a [text] that holds [None] is sliced and raises, and a
    [reviewerId] or [publishedAtDate] that holds [None] is formatted as
    [None]. *)
Definition _get_review_id (review : RawReview) : result str :=
  let reviewer_id := get_or (r_reviewerId review) [] in
  let published_at := get_or (r_publishedAtDate review) [] in
  match get_or (r_text review) [] with
  | None => Raise none_not_subscriptable
  | Some text =>
      let text := take 50 text in
      Ok (format_value reviewer_id ++ u "_" ++ format_value published_at
          ++ u "_" ++ str_of_int (hash text))
  end.

(** The loop of [_filter_new_reviews]: [new_reviews], or the exception
    that ends the loop, and [existing_ids] at that point. *)
Fixpoint filter_new_loop (h : Heap) (reviews : list loc)
    (new_reviews : list loc) (existing_ids : gset str)
  : result (list loc) * gset str :=
  match reviews with
  | [] => (Ok new_reviews, existing_ids)
  | l :: rest =>
      match _get_review_id (h l) with
      | Raise e => (Raise e, existing_ids)
      | Ok review_id =>
          if decide (review_id ∈ existing_ids)
          then filter_new_loop h rest new_reviews existing_ids
          else filter_new_loop h rest (new_reviews ++ [l])
                               ({[review_id]} ∪ existing_ids)
      end
  end.

(** [_filter_new_reviews(reviews, place_id)]: the new reviews, or the
    exception [_get_review_id] raised, and the scraper afterwards.
    [existing_ids] is the set stored in the index, so adding to it changes
    the index, also when the loop is left by an exception; the file system
    is not touched. *)
Definition _filter_new_reviews (h : Heap) (s : Scraper) (reviews : list loc)
    (place_id : str) : result (list loc) * Scraper :=
  let existing_ids := default ∅ (scraped_review_ids s !! place_id) in
  let out := filter_new_loop h reviews [] existing_ids in
  (fst out,
   {| scraped_review_ids := <[place_id := snd out]> (scraped_review_ids s);
      fs := fs s |}).

(** [reset_cache_for_location(place_id)] *)
Definition reset_cache_for_location (s : Scraper) (place_id : str)
  : bool * Scraper :=
  match scraped_review_ids s !! place_id with
  | Some _ =>
      (true,
       _save_cache {| scraped_review_ids := delete place_id (scraped_review_ids s);
                      fs := fs s |})
  | None => (false, s)
  end.

(** [reset_all_cache()] *)
Definition reset_all_cache (s : Scraper) : Scraper :=
  _save_cache {| scraped_review_ids := ∅; fs := fs s |}.

(** [get_cached_review_count(place_id)] *)
Definition get_cached_review_count (s : Scraper) (place_id : str) : nat :=
  size (default ∅ (scraped_review_ids s !! place_id)).

(** The first item of the actor's dataset, as far as [scrape_location]
    reads it.  [placeId] is read through [get] and its truth value:
    [None] stands for an absent key and for [None].  [reviews] is read
    with a default and then measured: it is absent, [None] or a list. *)
Record LocationData := {
  ld_title : json;
  ld_address : json;
  ld_totalScore : json;
  ld_reviewsCount : json;
  ld_categoryName : json;
  ld_phone : json;
  ld_website : json;
  ld_location : json;
  ld_placeId : option str;
  ld_reviews : slot (list loc)
}.

(** What the actor call and the reading of its dataset yield. *)
Inductive actor_run :=
  | ActorRaises (e : exn)
  | Dataset (items : list LocationData).

Record ScrapingStats := {
  raw_reviews_fetched : nat;
  duplicates_filtered : nat;
  new_reviews_found : nat;
  total_scraped_for_location : nat
}.

Record ScrapeData := {
  sd_location : LocationData;
  sd_reviews : list loc;
  sd_cleaning_stats : CleaningStats;
  sd_scraping_stats : ScrapingStats
}.

Inductive scrape_response :=
  | ScrapeFailure (error : str)
  | ScrapeSuccess (d : ScrapeData).

(** [len(None)] *)
Definition none_has_no_len : exn :=
  Exn TypeError (u "object of type 'NoneType' has no len()").

(** The deduplication step of [scrape_location]: [_filter_new_reviews]
    followed by [_save_cache], which an exception of the first skips. *)
Definition dedup_step (h : Heap) (s : Scraper) (reviews : list loc)
    (place_id : str) : result (list loc) * Scraper :=
  let out := _filter_new_reviews h s reviews place_id in
  match fst out with
  | Ok new_reviews => (Ok new_reviews, _save_cache (snd out))
  | Raise e => (Raise e, snd out)
  end.

(** [scrape_location(place_url, ..., skip_duplicates)], from the answer
    [run] of the actor on: the response, the scraper and the store
    afterwards.  Every exception inside the [try] ends the call with
    [{"success": False, "error": str(e)}]; what the scraper has changed by
    then stays changed. *)
Definition scrape_location (h : Heap) (s : Scraper) (run : actor_run)
    (skip_duplicates : bool) : scrape_response * Scraper * Heap :=
  match run with
  | ActorRaises e => (ScrapeFailure (exn_str e), s, h)
  | Dataset [] => (ScrapeFailure (u "No data found"), s, h)
  | Dataset (location_data :: _) =>
      match get_or (ld_reviews location_data) [] with
      | None => (ScrapeFailure (exn_str none_has_no_len), s, h)
      | Some reviews =>
          let deduped :=
            match ld_placeId location_data with
            | Some (c :: p) =>
                if skip_duplicates then dedup_step h s reviews (c :: p)
                else (Ok reviews, s)
            | _ => (Ok reviews, s)
            end in
          let s' := snd deduped in
          match fst deduped with
          | Raise e => (ScrapeFailure (exn_str e), s', h)
          | Ok new_reviews =>
              let cleaning_result := filter_reviews h new_reviews in
              (ScrapeSuccess
                 {| sd_location := location_data;
                    sd_reviews := c_valid_reviews cleaning_result;
                    sd_cleaning_stats := c_stats cleaning_result;
                    sd_scraping_stats :=
                      {| raw_reviews_fetched := length reviews;
                         duplicates_filtered :=
                           length reviews - length new_reviews;
                         new_reviews_found := length new_reviews;
                         total_scraped_for_location :=
                           match ld_placeId location_data with
                           | Some p => get_cached_review_count s' p
                           | None => 0
                           end |} |},
               s', c_heap cleaning_result)
          end
      end
  end.

End Scrape.

End ReviewScraper.
Export ReviewScraper.

(** ** Notions the statements use *)

Module Notions.

(** [x] lies in [-1.0, 1.0], by the comparisons of floats. *)
Definition in_unit_range (x : float) : bool :=
  ((-1 <=? x) && (x <=? 1))%float.

(** The float [round(x, 2)] yields for a value of [k] hundredths and sign
    [s]. *)
Definition of_centi (s : bool) (k : Z) : float :=
  SF2Prim (SFdiv prec emax (signed s k) (Z2SF 100)).

(** The reviews [filter_reviews] has counted. *)
Definition counted (st : CleaningStats) : nat :=
  valid st + no_text st + only_images st + too_short st.

(** The cleaned text [filter_reviews] gives a dictionary, when it keeps
    it. *)
Definition cleaned_text (review : RawReview) : option str :=
  match judge review with
  | Valid cleaned => Some cleaned
  | _ => None
  end.

(** Whether [filter_reviews] keeps a dictionary. *)
Definition is_kept (review : RawReview) : bool :=
  match cleaned_text review with
  | Some _ => true
  | None => false
  end.

(** The dictionary after the assignment [review["text"] = cleaned]. *)
Definition cleaned (review : RawReview) : RawReview :=
  match cleaned_text review with
  | Some t => set_text review t
  | None => review
  end.

(** Two dictionaries that differ at most in the key [text]. *)
Definition same_but_text (a b : RawReview) : Prop :=
  r_reviewText a = r_reviewText b
  ∧ r_reviewImageUrls a = r_reviewImageUrls b
  ∧ r_photos a = r_photos b
  ∧ r_reviewerId a = r_reviewerId b
  ∧ r_publishedAtDate a = r_publishedAtDate b.

(** The loop of [filter_reviews], from any state. *)
Definition cleaning_loop (c : Cleaning) (reviews : list loc) : Cleaning :=
  fold_left filter_step reviews c.

(** The cache file holds the index of the scraper. *)
Definition persisted (s : Scraper) : Prop :=
  fs_file (fs s) = Saved (serialize (scraped_review_ids s)).

(** The fingerprint of the review a reference denotes: the id
    [_get_review_id] returns for it (the empty string stands for it where
    the call raises). *)
Definition fingerprint (hash : str → Z) (h : Heap) (l : loc) : str :=
  match _get_review_id hash (h l) with
  | Ok review_id => review_id
  | Raise _ => []
  end.

(** [_get_review_id] returns on every one of the reviews: none has a
    [text] that holds [None]. *)
Definition sliceable (h : Heap) (reviews : list loc) : Prop :=
  ∀ l, l ∈ reviews → r_text (h l) ≠ Null.


(** The first occurrence of a fingerprint that is not in [seen]: [l] stands
    in [reviews] after [pre], and neither [seen] nor [pre] has its
    fingerprint. *)
Definition first_new (fp : loc → str) (seen : gset str) (reviews : list loc)
    (l : loc) : Prop :=
  ∃ pre post, reviews = pre ++ l :: post ∧ fp l ∉ seen ∧ fp l ∉ (fp <$> pre).

(** The entries the second loop of the endpoint adds are new analyses. *)
Definition all_analyzed (l : list result_entry) : Prop :=
  Forall (λ e, entry_from_cache e = false) l.

Section BatchNotions.
Context {DB : Type} `{Database DB}.

(** The stored row that makes the review at index [idx] a cache hit. *)
Definition cache_hit (db : DB) (force_reanalyze : bool) (idx : nat)
    (rev : ReviewIn) : option Row :=
  match review_text_of rev with
  | [] => None
  | _ :: _ =>
      if negb force_reanalyze
         && is_analyzed db (review_id_of idx rev) (review_text_of rev)
      then get_analysis db (review_id_of idx rev)
      else None
  end.

(** The review at index [idx] has a text and is no cache hit. *)
Definition needs_analysis (db : DB) (force_reanalyze : bool) (idx : nat)
    (rev : ReviewIn) : bool :=
  match review_text_of rev with
  | [] => false
  | _ :: _ =>
      match cache_hit db force_reanalyze idx rev with
      | Some _ => false
      | None => true
      end
  end.

(** The cache hits among [reviews], whose first index is [idx]: the id
    and the stored row of each, in order. *)
Fixpoint hits_from (db : DB) (force_reanalyze : bool) (idx : nat)
    (reviews : list ReviewIn) : list (str * Row) :=
  match reviews with
  | [] => []
  | rev :: rest =>
      match cache_hit db force_reanalyze idx rev with
      | Some row =>
          (review_id_of idx rev, row) :: hits_from db force_reanalyze (S idx) rest
      | None => hits_from db force_reanalyze (S idx) rest
      end
  end.

(** The requests for the reviews that need analysis, in order. *)
Fixpoint todo_from (db : DB) (force_reanalyze : bool) (idx : nat)
    (reviews : list ReviewIn) : list AnalysisRequest :=
  match reviews with
  | [] => []
  | rev :: rest =>
      if needs_analysis db force_reanalyze idx rev
      then request_of idx rev :: todo_from db force_reanalyze (S idx) rest
      else todo_from db force_reanalyze (S idx) rest
  end.

End BatchNotions.

End Notions.
Export Notions.

(** ** Inputs for the examples *)

Module Examples.

(** [str.lower] on ASCII text *)
Definition ascii_lower (s : str) : str :=
  map (λ c, if ((65 <=? c) && (c <=? 90))%N then (c + 32)%N else c) s.

(** A clock that advances by a millisecond per reading, and one that
    stands still. *)
Definition tick : Clock := λ n, 1000 * Z.of_nat n.
Definition still : Clock := λ _, 0.

(** A server for the examples: it holds the rows in a map, accepts every
    statement and stores of a result what the columns keep. *)
Record Table := { t_up : bool; t_rows : gmap str Row }.

Definition json_text (v : json) : str :=
  match v with
  | JStr s => s
  | _ => []
  end.

Definition row_of_result (r : SentimentResult) : Row :=
  {| row_id := default [] (sr_id r);
     row_review_text := sr_review_text r;
     row_rating := sr_rating r;
     row_reviewer_name := default None (sr_reviewer_name r);
     row_review_at := None;
     row_sentiment := json_text (sr_sentiment r);
     row_sentiment_score := 0;
     row_themes := sr_themes r;
     row_analysis_reasons := sr_analysis_reasons r;
     row_ai_suggestions := sr_ai_suggestions r;
     row_processing_time_ms := None;
     row_source := Some (sr_source r);
     row_analyzed_at := None;
     row_updated_at := None |}.

#[export] Instance table_database : Database Table := {
  db_connect t := t_up t;
  db_select t review_id := SqlOk (t_rows t !! review_id);
  db_upsert t r :=
    SqlOk {| t_up := t_up t;
             t_rows := <[default [] (sr_id r) := row_of_result r]> (t_rows t) |}
}.

Definition stored_row (review_id text : string) : Row :=
  {| row_id := u review_id;
     row_review_text := u text;
     row_rating := 5;
     row_reviewer_name := None;
     row_review_at := None;
     row_sentiment := u "Positive";
     row_sentiment_score := 80;
     row_themes := JList [];
     row_analysis_reasons := JList [];
     row_ai_suggestions := JList [];
     row_processing_time_ms := None;
     row_source := Some (u "github_models");
     row_analyzed_at := None;
     row_updated_at := None |}.

Definition table_with (review_id text : string) : Table :=
  {| t_up := true; t_rows := {[ u review_id := stored_row review_id text ]} |}.

Definition review_in (review_id text : string) : ReviewIn :=
  {| in_id := Some (u review_id);
     in_full_review := Some (u text);
     in_rating := Some 5;
     in_reviewer_name := None;
     in_review_date := None |}.

Definition batch_of (reviews : list ReviewIn) : BatchRequest :=
  {| rq_reviews := Some reviews;
     rq_parallel_processing := None;
     rq_force_reanalyze := None |}.

Definition sequential_batch_of (reviews : list ReviewIn) : BatchRequest :=
  {| rq_reviews := Some reviews;
     rq_parallel_processing := Some false;
     rq_force_reanalyze := None |}.

(** The tasks of a server without a client: every analysis is the
    fallback's. *)
Definition offline_engine : nat → AnalysisRequest → result SentimentResult :=
  github_engine ascii_lower (λ _, Raise (Exn JSONDecodeError [])) None
                (λ _, (tick, tick)) false.

Definition review_of (reviewer text : string) : RawReview :=
  {| r_text := Held (u text); r_reviewText := Absent;
     r_reviewImageUrls := None; r_photos := None;
     r_reviewerId := Held (u reviewer);
     r_publishedAtDate := Held (u "2025-01-01") |}.

(** A store in which every reference denotes the same review. *)
Definition one_review : Heap := λ _, review_of "u1" "Pelayanan bagus".
Definition padded_review : Heap :=
  λ _, review_of "u1" "  great   place!!  (Translated by Google)".

Definition zero_hash : str → Z := λ _, 0.

Definition fresh_scraper : Scraper :=
  {| scraped_review_ids := ∅;
     fs := {| fs_write := WriteOk; fs_file := Saved ∅ |} |}.

End Examples.
Export Examples.

(** ** Further notions *)

Module Further.

(** The number of the dictionaries whose verdict satisfies [p]. *)
Definition category_count (h : Heap) (reviews : list loc)
    (p : verdict → bool) : nat :=
  length (List.filter (λ l, p (judge (h l))) reviews).

Definition is_only_images (v : verdict) : bool :=
  match v with OnlyImages => true | _ => false end.
Definition is_no_text (v : verdict) : bool :=
  match v with NoText => true | _ => false end.
Definition is_too_short (v : verdict) : bool :=
  match v with TooShort => true | _ => false end.
Definition is_valid (v : verdict) : bool :=
  match v with Valid _ => true | _ => false end.

(** [s] neither starts nor ends with a whitespace character. *)
Definition trimmed (s : str) : Prop :=
  (∀ c t, s = c :: t → isspace c = false)
  ∧ (∀ c t, s = t ++ [c] → isspace c = false).

(** [KeyError: 'reviewer_name'] *)
Definition missing_reviewer_name : exn :=
  Exn KeyError (repr_key (u "reviewer_name")).

(** The reviews the first loop of the endpoint drops: those without a
    text. *)
Definition without_text (reviews : list ReviewIn) : list ReviewIn :=
  List.filter (λ rev, bool_decide (review_text_of rev = [])) reviews.


Section BatchSources.
Context {DB : Type} `{Database DB}.
Variable engine : nat → AnalysisRequest → result SentimentResult.

(** An entry of [results] comes from the store, or is the engine's answer
    to a request it was called with. *)
Definition entry_source (db : DB) (force : bool) (reviews : list ReviewIn)
    (en : result_entry) : Prop :=
  match en with
  | FromCache row =>
      ∃ i rev, reviews !! i = Some rev ∧ cache_hit db force i rev = Some row
  | Analyzed r _ =>
      ∃ i rq, todo_from db force 0 reviews !! i = Some rq
              ∧ engine i rq = Ok r
  end.

(** An entry of [errors] reports the exception of the engine, or of the
    save, for a request the engine was called with. *)
Definition error_source (db : DB) (force : bool) (reviews : list ReviewIn)
    (er : error_entry) : Prop :=
  match er with
  | ErrIndex i msg =>
      ∃ rq e, todo_from db force 0 reviews !! i = Some rq
              ∧ engine i rq = Raise e ∧ msg = exn_str e
  | ErrId id msg =>
      ∃ i rq, todo_from db force 0 reviews !! i = Some rq
              ∧ ar_id rq = id
              ∧ ((∃ e, engine i rq = Raise e ∧ msg = exn_str e)
                 ∨ (∃ r, engine i rq = Ok r
                         ∧ msg = exn_str missing_reviewer_name))
  end.

(** The state the second phase of the endpoint starts from. *)
Definition after_first_loop (db : DB) (force : bool) (reviews : list ReviewIn)
  : Progress :=
  {| g_db := db;
     g_results := FromCache ∘ snd <$> hits_from db force 0 reviews;
     g_errors := [] |}.

End BatchSources.

(** The note the fallback attaches for an error message. *)
Definition fallback_note (error_msg : str) : str :=
  match error_msg with
  | [] => u "Rule-based analysis"
  | _ => u "Fallback used: " ++ error_msg
  end.

(** [x] lies in [0.0, 1.0]. *)
Definition in_zero_one (x : float) : bool :=
  ((0 <=? x) && (x <=? 1))%float.

(** [sum(0.3 for ...)] over [n] keywords: 0.3 added [n] times from the
    left, starting from the integer 0. *)
Definition weak_sum (n : nat) : float :=
  fold_left PrimFloat.add (repeat 0.3%float n) 0%float.

(** The score of a text with [k] points from strong and medium keywords
    and [n] weak keywords. *)
Definition score_of (k : Z) (n : nat) : float :=
  py_min ((float_of_int k + weak_sum n) / 5)%float 1%float.

(** The points of a text from strong and medium keywords. *)
Definition points (text : str) (strong medium : list str) : Z :=
  2 * Z.of_nat (length (hits text strong))
  + Z.of_nat (length (hits text medium)).

End Further.
Export Further.

(** ** Further inputs for the examples *)

Module Cases.

(** Four reviews, one of each category of the cleaner. *)
Definition mixed_reviews : Heap :=
  λ l, match l with
       | 0%nat => review_of "u1" "  Pelayanan   bagus "
       | 1%nat => review_of "u2" "   "
       | 2%nat =>
           {| r_text := Absent; r_reviewText := Held (u "ok");
              r_reviewImageUrls := Some [u "https://example.org/1.jpg"];
              r_photos := None; r_reviewerId := Held (u "u3");
              r_publishedAtDate := Null |}
       | _ => review_of "u4" "ok"
       end.

(** Two reviews of one reviewer and date whose texts agree on the first 50
    characters. *)
Definition long_reviews : Heap :=
  λ l, match l with
       | 0%nat =>
           review_of "u1"
             "Pelayanan sangat bagus, mekanik ramah dan cepat sekali. Puas."
       | _ =>
           review_of "u1"
             "Pelayanan sangat bagus, mekanik ramah dan cepat sekali, tapi mahal."
       end.

(** A hash that tells many texts apart. *)
Definition sum_hash (s : str) : Z :=
  fold_left (λ a c, 31 * a + Z.of_N c) s 7.

Definition place_of (place_id : string) (reviews : list loc) : LocationData :=
  {| ld_title := JNull; ld_address := JNull; ld_totalScore := JNull;
     ld_reviewsCount := JNull; ld_categoryName := JNull; ld_phone := JNull;
     ld_website := JNull; ld_location := JNull;
     ld_placeId := Some (u place_id); ld_reviews := Held reviews |}.



(** A stored review, one without a text and one to analyse. *)
Definition three_reviews : list ReviewIn :=
  [review_in "R1" "Great service"; review_in "R2" "";
   review_in "R3" "pelayanan lambat"].

(** An answer of the model whose score lies outside [-1.0, 1.0]. *)
Definition eager_answer : json :=
  JDict [(u "sentiment", JStr (u "Positive"));
         (u "sentiment_score", JFloat 7.5);
         (u "themes", JList []);
         (u "analysis_reasons", JList []);
         (u "ai_suggestions", JList [])].

Definition eager_client : Client := Some (λ _, Content (u "{}")).

(** A review whose [text] holds [None]. *)
Definition textless_review : RawReview :=
  {| r_text := Null; r_reviewText := Absent; r_reviewImageUrls := None;
     r_photos := None; r_reviewerId := Held (u "u2");
     r_publishedAtDate := Held (u "2025-01-02") |}.

(** A review with a text, followed by reviews whose [text] holds
    [None]. *)
Definition then_textless : Heap :=
  λ l, match l with
       | 0%nat => review_of "u1" "Pelayanan bagus"
       | _ => textless_review
       end.

(** [print] on an interpreter that converts at most 4300 digits of an
    integer to a string, the default of CPython 3.12, and whose standard
    output takes every character. *)
Definition digit_limit_print (todo : list AnalysisRequest) : option exn :=
  if forallb (λ rq, Z.abs (ar_rating rq) <? 10 ^ 4300) todo
  then None
  else Some (Exn ValueError
               (u "Exceeds the limit (4300 digits) for integer string conversion; use sys.set_int_max_str_digits() to increase the limit")).

(** A review with the rating [rating]. *)
Definition review_rated (rating : Z) : ReviewIn :=
  {| in_id := Some (u "R9");
     in_full_review := Some (u "bagus");
     in_rating := Some rating;
     in_reviewer_name := None;
     in_review_date := None |}.

End Cases.
Export Cases.

(* ===================================================================== *)
(** * Part II: properties                                                 *)
(* ===================================================================== *)

(** ** The review cleaner *)

Section CleanerFacts.

Lemma filter_step_stats c l :
  total (c_stats (filter_step c l)) = total (c_stats c)
  ∧ counted (c_stats (filter_step c l)) = S (counted (c_stats c))
  ∧ (valid (c_stats (filter_step c l)) + length (c_valid_reviews c)
     = valid (c_stats c) + length (c_valid_reviews (filter_step c l)))%nat.
Proof.
  unfold filter_step, counted.
  destruct (judge (c_heap c l)); simpl; rewrite ?length_app; simpl; lia.
Qed.

Lemma cleaning_loop_stats reviews c :
  let c' := cleaning_loop c reviews in
  total (c_stats c') = total (c_stats c)
  ∧ counted (c_stats c') = (counted (c_stats c) + length reviews)%nat
  ∧ (valid (c_stats c') + length (c_valid_reviews c)
     = valid (c_stats c) + length (c_valid_reviews c'))%nat.
Proof.
  unfold cleaning_loop.
  revert c. induction reviews as [|l reviews IH]; intros c; simpl.
  - lia.
  - destruct (IH (filter_step c l)) as (Ht & Hc & Hv).
    destruct (filter_step_stats c l) as (Ht1 & Hc1 & Hv1).
    simpl in *. lia.
Qed.

(** C10.  The statistics [filter_reviews] returns partition the input:
    [total] is the sum of the four categories and the length of the input,
    and [valid] is the length of [valid_reviews]. *)
Theorem filter_reviews_stats_partition (h : Heap) (reviews : list loc) :
  let st := c_stats (filter_reviews h reviews) in
  (total st = valid st + no_text st + only_images st + too_short st
   ∧ total st = length reviews
   ∧ valid st = length (c_valid_reviews (filter_reviews h reviews)))%nat.
Proof.
  unfold filter_reviews.
  match goal with |- context [fold_left filter_step reviews ?c0] =>
    destruct (cleaning_loop_stats reviews c0) as (Ht & Hc & Hv) end.
  unfold cleaning_loop, counted in *. simpl in *. lia.
Qed.

Lemma same_but_text_refl a : same_but_text a a.
Proof. by repeat split. Qed.

Lemma same_but_text_set a b t :
  same_but_text a b → same_but_text (set_text a t) b.
Proof. intros (?&?&?&?&?); by repeat split. Qed.

Lemma filter_step_cases c l :
  (cleaned_text (c_heap c l) = None
   ∧ c_heap (filter_step c l) = c_heap c
   ∧ c_valid_reviews (filter_step c l) = c_valid_reviews c)
  ∨ (∃ t, cleaned_text (c_heap c l) = Some t
     ∧ c_heap (filter_step c l) = heap_set (c_heap c) l (set_text (c_heap c l) t)
     ∧ c_valid_reviews (filter_step c l) = c_valid_reviews c ++ [l]).
Proof.
  unfold filter_step, cleaned_text.
  destruct (judge (c_heap c l)); simpl; eauto 6.
Qed.

Lemma heap_set_eq h l r : heap_set h l r l = r.
Proof. unfold heap_set. by rewrite decide_True. Qed.

Lemma heap_set_ne h l r l' : l' ≠ l → heap_set h l r l' = h l'.
Proof. intros. unfold heap_set. by rewrite decide_False. Qed.

Lemma cleaned_text_is_clean review t :
  cleaned_text review = Some t → ∃ t0, t = clean_review_text t0.
Proof.
  unfold cleaned_text, judge. intros Ht.
  repeat case_match; simplify_eq.
  match goal with |- context [split ?t] => by exists t end.
Qed.

Lemma cleaning_loop_spec c reviews :
  ∃ kept,
    c_valid_reviews (cleaning_loop c reviews) = c_valid_reviews c ++ kept
    ∧ kept `sublist_of` reviews
    ∧ (∀ l, l ∉ kept → c_heap (cleaning_loop c reviews) l = c_heap c l)
    ∧ (∀ l, same_but_text (c_heap (cleaning_loop c reviews) l) (c_heap c l))
    ∧ (∀ l, l ∈ kept →
         ∃ t, r_text (c_heap (cleaning_loop c reviews) l)
              = Held (clean_review_text t))
    ∧ (NoDup reviews →
         kept = List.filter (λ l, is_kept (c_heap c l)) reviews
         ∧ ∀ l, l ∈ kept → c_heap (cleaning_loop c reviews) l = cleaned (c_heap c l)).
Proof.
  induction reviews as [|l reviews IH] using rev_ind.
  - exists []. simpl. rewrite app_nil_r. split_and!; try done.
    + intros l Hl. by apply elem_of_nil in Hl.
    + intros _. split; [done|]. intros l Hl. by apply elem_of_nil in Hl.
  - destruct IH as (kept & Hv & Hsub & Hframe & Hsame & Hclean & Hnd).
    unfold cleaning_loop in *. rewrite fold_left_app. simpl.
    set (c1 := fold_left filter_step reviews c) in *.
    assert (NoDup (reviews ++ [l]) → NoDup reviews ∧ l ∉ kept) as Hsplit.
    { intros Hnodup. apply NoDup_app in Hnodup as (Hnd1 & Hnotin & _).
      split; [done|]. intros Hin. apply (Hnotin l); [|by left].
      by eapply elem_of_sublist. }
    destruct (filter_step_cases c1 l) as [(Hn & Hh & Hvl)|(t & Ht & Hh & Hvl)].
    + exists kept. rewrite Hh, Hvl. split_and!; try done.
      * by apply sublist_inserts_r.
      * intros Hnodup. destruct (Hsplit Hnodup) as [Hnd1 Hlk].
        destruct (Hnd Hnd1) as (Hk & Hc). split; [|done].
        rewrite List.filter_app. simpl.
        unfold is_kept at 2. rewrite <- (Hframe l Hlk), Hn.
        by rewrite app_nil_r.
    + exists (kept ++ [l]). rewrite Hh, Hvl, Hv, <- (assoc_L (++)).
      split_and!; try done.
      * by apply sublist_app.
      * intros l' Hl'. rewrite not_elem_of_app, list_elem_of_singleton in Hl'.
        destruct Hl' as [? ?]. rewrite heap_set_ne by done. by apply Hframe.
      * intros l'. destruct (decide (l' = l)) as [->|Hne].
        -- rewrite heap_set_eq. by apply same_but_text_set.
        -- by rewrite heap_set_ne.
      * intros l' Hl'. destruct (decide (l' = l)) as [->|Hne].
        -- rewrite heap_set_eq. simpl.
           destruct (cleaned_text_is_clean _ _ Ht) as [t0 ->]. eauto.
        -- rewrite heap_set_ne by done. apply Hclean.
           rewrite elem_of_app, list_elem_of_singleton in Hl'. by destruct Hl'.
      * intros Hnodup. destruct (Hsplit Hnodup) as [Hnd1 Hlk].
        destruct (Hnd Hnd1) as (Hk & Hc). split.
        -- rewrite List.filter_app. simpl.
           unfold is_kept at 2. rewrite <- (Hframe l Hlk), Ht.
           by rewrite Hk.
        -- intros l' Hl'. destruct (decide (l' = l)) as [->|Hne].
           ++ rewrite heap_set_eq. unfold cleaned.
              rewrite <- (Hframe l Hlk), Ht. done.
           ++ rewrite heap_set_ne by done. apply Hc.
              rewrite elem_of_app, list_elem_of_singleton in Hl'.
              by destruct Hl'.
Qed.

(** C7, as amended.  [filter_reviews] writes to its input: it overwrites
    the key [text] of every dictionary it keeps with a cleaned text, and
    changes nothing else.  [valid_reviews] is a sublist of the input, in
    input order.  When no dictionary occurs twice in the input, the kept
    ones are exactly those the validity test accepts, each with its own
    text cleaned. *)
Theorem filter_reviews_effect (h : Heap) (reviews : list loc) :
  let c := filter_reviews h reviews in
  c_valid_reviews c `sublist_of` reviews
  ∧ (∀ l, l ∉ c_valid_reviews c → c_heap c l = h l)
  ∧ (∀ l, same_but_text (c_heap c l) (h l))
  ∧ (∀ l, l ∈ c_valid_reviews c →
       ∃ t, r_text (c_heap c l) = Held (clean_review_text t))
  ∧ (NoDup reviews →
       c_valid_reviews c = List.filter (λ l, is_kept (h l)) reviews
       ∧ ∀ l, l ∈ c_valid_reviews c → c_heap c l = cleaned (h l)).
Proof.
  unfold filter_reviews.
  match goal with |- context [fold_left filter_step reviews ?c0] =>
    destruct (cleaning_loop_spec c0 reviews)
      as (kept & Hv & Hsub & Hframe & Hsame & Hclean & Hnd) end.
  unfold cleaning_loop in *. simpl in *. rewrite Hv. by split_and!.
Qed.

(** C7, the counterexample: after the call the one dictionary of the input
    holds the cleaned text, not the text it came with. *)
Lemma filter_reviews_overwrites_text :
  r_text (padded_review 0%nat)
  = Held (u "  great   place!!  (Translated by Google)")
  ∧ r_text (c_heap (filter_reviews padded_review [0%nat]) 0%nat)
    = Held (u "great place!!")
  ∧ c_heap (filter_reviews padded_review [0%nat]) 0%nat ≠ padded_review 0%nat.
Proof.
  split; [reflexivity|]. split; [vm_compute; reflexivity|].
  intros Heq. apply (f_equal r_text) in Heq. vm_compute in Heq. discriminate Heq.
Qed.

End CleanerFacts.

(** ** Floats: rounding to two decimals stays in range *)

Section FloatFacts.

Lemma digits2_pos_bound (m : positive) : Zpos m < 2 ^ Zpos (digits2_pos m).
Proof.
  induction m as [m IH|m IH|]; simpl digits2_pos.
  - rewrite Pos2Z.inj_succ, Z.pow_succ_r by lia. lia.
  - rewrite Pos2Z.inj_succ, Z.pow_succ_r by lia. lia.
  - reflexivity.
Qed.

Lemma half_even_div_le n d c :
  0 < d → 0 <= n → n < c * d → 0 <= half_even_div n d <= c.
Proof.
  intros Hd Hn Hlt. unfold half_even_div.
  assert (0 <= n / d) by (apply Z.div_pos; lia).
  assert (n / d < c) by (apply Z.div_lt_upper_bound; lia).
  destruct (2 * (n mod d) ?= d); [destruct (Z.even (n / d))|..]; lia.
Qed.

Lemma small_mantissa s m e :
  valid_binary (S754_finite s m e) = true →
  (e < -52 ∨ e = -52 ∧ Zpos m < 4503599627370496) →
  e < 0 ∧ Zpos m < 2 ^ (- e).
Proof.
  intros Hv He. split; [clear Hv; lia|].
  destruct He as [He|[-> Hm]].
  - unfold valid_binary, bounded, canonical_mantissa, fexp, emin in Hv.
    apply andb_prop in Hv as [Hc _]. apply Z.eqb_eq in Hc.
    pose proof (digits2_pos_bound m) as Hd.
    assert (Zpos (digits2_pos m) <= 53) as Hle.
    { change prec with 53 in Hc. change emax with 1024 in Hc. lia. }
    assert (2 ^ Zpos (digits2_pos m) <= 2 ^ (- e)).
    { apply Z.pow_le_mono_r; lia. }
    lia.
  - change (2 ^ (- -52)) with 4503599627370496. exact Hm.
Qed.

Lemma centi_small m e : e < 0 → Zpos m < 2 ^ (- e) → 0 <= centi m e <= 100.
Proof.
  intros He Hm. unfold centi.
  destruct (0 <=? e) eqn:E; [apply Z.leb_le in E; lia|].
  apply half_even_div_le; [apply Z.pow_pos_nonneg; lia|lia|lia].
Qed.

Lemma of_centi_range_check :
  forallb (λ k, in_unit_range (of_centi false k) && in_unit_range (of_centi true k))
          (map Z.of_nat (seq 0 101)) = true.
Proof. vm_compute. reflexivity. Qed.

Lemma of_centi_range s k : 0 <= k <= 100 → in_unit_range (of_centi s k) = true.
Proof.
  intros Hk. pose proof of_centi_range_check as Hall.
  rewrite forallb_forall in Hall.
  specialize (Hall k). 
  assert (In k (map Z.of_nat (seq 0 101))) as Hin.
  { rewrite in_map_iff. exists (Z.to_nat k). split; [lia|].
    apply in_seq. lia. }
  apply Hall in Hin. apply andb_prop in Hin as [? ?]. by destruct s.
Qed.

Lemma ltb_one_finite m e :
  SFltb (S754_finite false m e) (Prim2SF 1) = true →
  e < -52 ∨ e = -52 ∧ Zpos m < 4503599627370496.
Proof.
  change (Prim2SF 1) with (S754_finite false 4503599627370496 (-52)).
  unfold SFltb, SFcompare.
  destruct (Z.compare_spec e (-52)) as [->|?|?]; intros Hc; [|by left|done].
  right. split; [done|].
  by destruct (Pos.compare_cont Eq m 4503599627370496) eqn:E.
Qed.

Lemma ltb_minus_one_finite m e :
  SFltb (Prim2SF (-1)) (S754_finite true m e) = true →
  e < -52 ∨ e = -52 ∧ Zpos m < 4503599627370496.
Proof.
  change (Prim2SF (-1)) with (S754_finite true 4503599627370496 (-52)).
  unfold SFltb, SFcompare.
  destruct (Z.compare_spec (-52) e) as [<-|?|?]; intros Hc; [|done|left; lia].
  right. split; [done|].
  destruct (Pos.compare_cont Eq 4503599627370496 m) eqn:E; try done.
  apply Pos.compare_gt_iff in E. exact E.
Qed.

Lemma round2_inside (f : float) :
  (-1 <? f)%float = true → (f <? 1)%float = true →
  in_unit_range (round2 f) = true.
Proof.
  intros Hlo Hhi. rewrite ltb_spec in Hlo, Hhi.
  pose proof (Prim2SF_valid f) as Hv.
  unfold round2. destruct (Prim2SF f) as [s|s| |s m e] eqn:Ef.
  - unfold in_unit_range. rewrite !leb_spec, Ef. by destruct s.
  - by destruct s.
  - done.
  - apply of_centi_range.
    assert (e < -52 ∨ e = -52 ∧ Zpos m < 4503599627370496) as He.
    { destruct s; [by apply ltb_minus_one_finite|by apply ltb_one_finite]. }
    destruct (small_mantissa s m e Hv He). by apply centi_small.
Qed.

Lemma clamp_round2_range (x : float) :
  in_unit_range (round2 (py_max (-1) (py_min 1 x))) = true.
Proof.
  unfold py_min, py_max.
  destruct (x <? 1)%float eqn:Hhi.
  - destruct (-1 <? x)%float eqn:Hlo.
    + by apply round2_inside.
    + vm_compute. reflexivity.
  - vm_compute. reflexivity.
Qed.

End FloatFacts.

(** ** The sentiment engine *)

Section AnalyzerFacts.

Lemma ltb_exclusive (f : float) :
  (f <? -0.2)%float = true → (0.2 <? f)%float = false.
Proof.
  rewrite !ltb_spec.
  change (Prim2SF (-0.2)) with (S754_finite true 7205759403792794 (-55)).
  change (Prim2SF 0.2) with (S754_finite false 7205759403792794 (-55)).
  destruct (Prim2SF f) as [s|s| |s m e].
  - by destruct s.
  - by destruct s.
  - done.
  - by destruct s.
Qed.

Lemma classify_thresholds (final : float) :
  ((0.2 <? final)%float = true → classify final = Positive)
  ∧ ((final <? -0.2)%float = true → classify final = Negative)
  ∧ ((0.2 <? final)%float = false → (final <? -0.2)%float = false →
     classify final = Neutral).
Proof.
  unfold classify. split_and!.
  - by intros ->.
  - intros Hneg. by rewrite (ltb_exclusive _ Hneg), Hneg.
  - by intros -> ->.
Qed.

(** C3.  Whenever the fallback returns, its [sentiment_score] lies in
    [-1.0, 1.0] and its label follows the thresholds on
    [final_score = (pos_score - neg_score) * 0.7 + ((rating - 3) / 2) * 0.3]:
    above 0.2 Positive, below -0.2 Negative, otherwise (0.2 itself
    included) Neutral.  The fallback fails to return only when
    [(rating - 3) / 2] is no float. *)
Theorem fallback_score_bounds_and_thresholds (lower : str → str) (clk : Clock)
    (review : str) (rating : Z) (review_id : option str) (error_msg : str) :
  match fallback_analysis lower clk review rating review_id error_msg with
  | Ok r =>
      ∃ q final score,
        int_truediv (rating - 3) 2 = Some q
        ∧ final = ((pos_score (lower review) - neg_score (lower review)) * 0.7
                   + q * 0.3)%float
        ∧ sr_sentiment_score r = JFloat score
        ∧ in_unit_range score = true
        ∧ ((0.2 <? final)%float = true → sr_sentiment r = JStr (u "Positive"))
        ∧ ((final <? -0.2)%float = true → sr_sentiment r = JStr (u "Negative"))
        ∧ ((0.2 <? final)%float = false → (final <? -0.2)%float = false →
           sr_sentiment r = JStr (u "Neutral"))
        ∧ (final = 0.2%float → sr_sentiment r = JStr (u "Neutral"))
  | Raise e => int_truediv (rating - 3) 2 = None
  end.
Proof.
  unfold fallback_analysis, final_score.
  destruct (int_truediv (rating - 3) 2) as [q|] eqn:Hq; simpl; [|done].
  eexists q, _, _. split_and!; try done.
  - apply clamp_round2_range.
  - intros Hp. by rewrite (proj1 (classify_thresholds _) Hp).
  - intros Hn. by rewrite (proj1 (proj2 (classify_thresholds _)) Hn).
  - intros Hp Hn. by rewrite (proj2 (proj2 (classify_thresholds _)) Hp Hn).
  - intros ->. reflexivity.
Qed.

Lemma reasons_length (sentiment : Sentiment) (rating : Z) (pos neg : float) :
  (2 ≤ length (reasons sentiment rating pos neg) ≤ 3)%nat
  ∧ (length (reasons sentiment rating pos neg) = 3%nat
     ↔ sentiment = Neutral
       ∨ sentiment = Positive ∧ 4 <= rating
       ∨ sentiment = Negative ∧ rating <= 2).
Proof.
  destruct sentiment; simpl;
    [destruct (Z.leb_spec 4 rating)|destruct (Z.leb_spec rating 2)|];
    simpl; (split; [lia|]); split; intros;
    first [lia | discriminate | done | intuition (discriminate || lia)].
Qed.

(** C6, as amended.  The fallback gives two or three reasons: three for a
    Neutral review, for a Positive one rated 4 or more and for a Negative
    one rated 2 or less, two otherwise.  The remote path returns under
    [analysis_reasons] whatever the decoded answer holds under that key. *)
Theorem analysis_reasons_count (lower : str → str)
    (json_loads : str → result json) (client : Client) (clk : Clock)
    (review : str) (rating : Z) (review_id : option str)
    (reviewer_name review_at : option str) (is_google : bool)
    (error_msg : str) :
  match fallback_analysis lower clk review rating review_id error_msg with
  | Ok r =>
      ∃ final l,
        final_score (lower review) rating = Ok final
        ∧ sr_analysis_reasons r = JList l
        ∧ (2 ≤ length l ≤ 3)%nat
        ∧ (length l = 3%nat
           ↔ classify final = Neutral
             ∨ classify final = Positive ∧ 4 <= rating
             ∨ classify final = Negative ∧ rating <= 2)
  | Raise _ => True
  end
  ∧ match remote_analysis json_loads client clk review rating review_id
                          reviewer_name review_at is_google with
    | Ok r =>
        ∃ complete raw doc,
          client = Some complete
          ∧ complete (build_prompt review rating) = Content raw
          ∧ json_loads (strip_fences (strip raw)) = Ok doc
          ∧ getitem doc (u "analysis_reasons") = Ok (sr_analysis_reasons r)
    | Raise _ => True
    end.
Proof.
  split.
  - unfold fallback_analysis.
    destruct (final_score (lower review) rating) as [final|e]; simpl; [|done].
    eexists final, _. split_and!; [done|reflexivity|..];
      unfold json_strs; rewrite length_map; apply reasons_length.
  - unfold remote_analysis.
    destruct client as [complete|]; [|done].
    destruct (complete (build_prompt review rating)) as [e|raw] eqn:Hc; [done|].
    destruct (json_loads (strip_fences (strip raw))) as [doc|e] eqn:Hd; simpl; [|done].
    destruct (getitem doc (u "sentiment")); simpl; [|done].
    destruct (getitem doc (u "sentiment_score")); simpl; [|done].
    destruct (getitem doc (u "themes")); simpl; [|done].
    destruct (getitem doc (u "analysis_reasons")) eqn:Hr; simpl; [|done].
    destruct (getitem doc (u "ai_suggestions")); simpl; [|done].
    exists complete, raw, doc. by rewrite Hr.
Qed.

(** C6, the counterexample: a Positive review rated 3 gets two reasons. *)
Lemma two_reasons_for_positive_rating_3 :
  ∃ r, fallback_analysis ascii_lower tick (u "luar biasa") 3 None [] = Ok r
       ∧ sr_sentiment r = JStr (u "Positive")
       ∧ json_len (sr_analysis_reasons r) = Some 2%nat.
Proof. eexists. split; [vm_compute; reflexivity|]. split; reflexivity. Qed.

(** C8, as amended.  Two calls of the fallback on the same review text and
    rating both return or both raise the same exception; when they return,
    the results agree on every field but [id] and [note], which repeat the
    other two arguments, and [processing_time_ms] and [timestamp], which
    are read from the clock. *)
Theorem fallback_reproducible (lower : str → str) (clk1 clk2 : Clock)
    (review : str) (rating : Z) (id1 id2 : option str) (msg1 msg2 : str) :
  match fallback_analysis lower clk1 review rating id1 msg1,
        fallback_analysis lower clk2 review rating id2 msg2 with
  | Ok r1, Ok r2 =>
      sr_review_text r1 = sr_review_text r2
      ∧ sr_rating r1 = sr_rating r2
      ∧ sr_sentiment r1 = sr_sentiment r2
      ∧ sr_sentiment_score r1 = sr_sentiment_score r2
      ∧ sr_themes r1 = sr_themes r2
      ∧ sr_analysis_reasons r1 = sr_analysis_reasons r2
      ∧ sr_ai_suggestions r1 = sr_ai_suggestions r2
      ∧ sr_source r1 = sr_source r2
      ∧ sr_reviewer_name r1 = sr_reviewer_name r2
      ∧ sr_review_at r1 = sr_review_at r2
      ∧ sr_is_google r1 = sr_is_google r2
      ∧ (id1 = id2 → sr_id r1 = sr_id r2)
      ∧ (msg1 = msg2 → sr_note r1 = sr_note r2)
      ∧ (clk1 0%nat = clk2 0%nat → clk1 1%nat = clk2 1%nat →
         sr_processing_time_ms r1 = sr_processing_time_ms r2)
      ∧ (clk1 2%nat = clk2 2%nat → sr_timestamp r1 = sr_timestamp r2)
  | Raise e1, Raise e2 => e1 = e2
  | _, _ => False
  end.
Proof.
  unfold fallback_analysis.
  destruct (final_score (lower review) rating) as [final|e]; simpl; [|done].
  split_and!; try done; intros; subst; simpl; congruence.
Qed.

(** C8, the counterexample: the same text and rating at two clocks give
    results that differ in [timestamp] and [processing_time_ms]. *)
Lemma fallback_differs_with_the_clock :
  ∃ r1 r2,
    fallback_analysis ascii_lower still (u "bagus") 5 None [] = Ok r1
    ∧ fallback_analysis ascii_lower tick (u "bagus") 5 None [] = Ok r2
    ∧ sr_timestamp r1 ≠ sr_timestamp r2
    ∧ sr_processing_time_ms r1 ≠ sr_processing_time_ms r2
    ∧ r1 ≠ r2.
Proof.
  eexists _, _. split; [vm_compute; reflexivity|].
  split; [vm_compute; reflexivity|].
  split; [done|]. split.
  - simpl. intros Heq.
    assert (0 =? 1 = true)%float as Hb by (rewrite <- Heq; reflexivity).
    discriminate Hb.
  - intros Heq. apply (f_equal sr_timestamp) in Heq. discriminate Heq.
Qed.

(** C2, at the failing input: without a client and with the rating
    [10 ** 400], [analyze_with_github] raises [OverflowError]: the fallback
    runs in the handler, where nothing catches what it raises. *)
Theorem analyze_with_github_raises_on_huge_rating (lower : str → str)
    (json_loads : str → result json) (clk fclk : Clock) (review : str)
    (review_id : option str) (reviewer_name review_at : option str)
    (is_google : bool) :
  analyze_with_github lower json_loads None clk fclk review (10 ^ 400)
                      review_id reviewer_name review_at is_google
  = Raise overflow_error.
Proof.
  unfold analyze_with_github, remote_analysis, try_except, fallback_analysis,
    final_score.
  replace (int_truediv (10 ^ 400 - 3) 2) with (@None float)
    by (vm_compute; reflexivity).
  reflexivity.
Qed.

End AnalyzerFacts.

(** ** The deduplication index *)

Section DedupFacts.
Variable hash : str → Z.
Variable h : Heap.

Abbreviation fp := (fingerprint hash h).

Lemma review_id_returns l :
  r_text (h l) ≠ Null → _get_review_id hash (h l) = Ok (fp l).
Proof.
  unfold fingerprint, _get_review_id. by destruct (r_text (h l)).
Qed.

Lemma review_id_raises l :
  r_text (h l) = Null → _get_review_id hash (h l) = Raise none_not_subscriptable.
Proof. unfold _get_review_id. by intros ->. Qed.

Lemma sliceable_cons l reviews :
  sliceable h (l :: reviews) ↔ r_text (h l) ≠ Null ∧ sliceable h reviews.
Proof.
  unfold sliceable. split.
  - intros Hall. split; [apply Hall; by left|].
    intros l' Hl'. apply Hall. by right.
  - intros [Hl Hall] l' [->|Hl']%elem_of_cons; [done|by apply Hall].
Qed.

Lemma sliceable_app pre post :
  sliceable h (pre ++ post) ↔ sliceable h pre ∧ sliceable h post.
Proof.
  unfold sliceable. split.
  - intros Hall. split; intros l Hl; apply Hall, elem_of_app; [by left|by right].
  - intros [Hpre Hpost] l [?|?]%elem_of_app; [by apply Hpre|by apply Hpost].
Qed.

Lemma filter_new_loop_acc reviews new seen :
  filter_new_loop hash h reviews new seen
  = (match (filter_new_loop hash h reviews [] seen).1 with
     | Ok found => Ok (new ++ found)
     | Raise e => Raise e
     end,
     (filter_new_loop hash h reviews [] seen).2).
Proof.
  revert new seen. induction reviews as [|l reviews IH]; intros new seen; simpl.
  - by rewrite app_nil_r.
  - destruct (_get_review_id hash (h l)) as [review_id|e]; [|done].
    case_decide.
    + apply IH.
    + rewrite (IH (new ++ [l])), (IH [l]). simpl.
      destruct (filter_new_loop hash h reviews [] _).1; [|done].
      by rewrite <- (assoc_L (++)).
Qed.

(** The loop on reviews that all have an id. *)
Lemma filter_new_loop_spec reviews seen :
  sliceable h reviews →
  ∃ new,
    filter_new_loop hash h reviews [] seen
    = (Ok new, seen ∪ list_to_set (fp <$> reviews))
    ∧ new `sublist_of` reviews
    ∧ NoDup (fp <$> new)
    ∧ (∀ l, l ∈ new ↔ first_new fp seen reviews l).
Proof.
  revert seen. induction reviews as [|l0 reviews IH]; intros seen Hall; simpl.
  - exists []. split_and!; [f_equal; set_solver|done|constructor|].
    intros l. split; [by intros ?%elem_of_nil|].
    intros (pre & post & Heq & _). by destruct pre.
  - apply sliceable_cons in Hall as [Hl0 Hall].
    rewrite (review_id_returns _ Hl0). case_decide as Hin.
    + destruct (IH seen Hall) as (new & Hrun & Hsub & Hnd & Hmem).
      exists new. split_and!.
      * rewrite Hrun. f_equal. set_solver.
      * by apply sublist_cons.
      * done.
      * intros l. rewrite Hmem. unfold first_new. split.
        -- intros (pre & post & -> & Hl & Hpre). exists (l0 :: pre), post.
           split_and!; [done|done|]. rewrite fmap_cons, not_elem_of_cons.
           split; [|done]. intros Heq. by rewrite Heq in Hl.
        -- intros (pre & post & Heq & Hl & Hpre). destruct pre as [|x pre].
           ++ simpl in Heq. injection Heq as <- <-. done.
           ++ simpl in Heq. injection Heq as <- ->. exists pre, post.
              rewrite fmap_cons, not_elem_of_cons in Hpre. naive_solver.
    + rewrite filter_new_loop_acc.
      destruct (IH ({[fp l0]} ∪ seen) Hall) as (new & Hrun & Hsub & Hnd & Hmem).
      rewrite Hrun. exists (l0 :: new). simpl. split_and!.
      * f_equal. set_solver.
      * by apply sublist_skip.
      * constructor; [|done].
        intros (l & Heq & Hl)%list_elem_of_fmap.
        apply Hmem in Hl as (pre & post & _ & Hl & _). set_solver.
      * intros l. rewrite elem_of_cons, Hmem. unfold first_new. split.
        -- intros [->|(pre & post & -> & Hl & Hpre)].
           ++ exists [], reviews. split_and!; [done|done|]. simpl.
              apply not_elem_of_nil.
           ++ exists (l0 :: pre), post. split_and!; [done|set_solver|].
              rewrite fmap_cons, not_elem_of_cons. set_solver.
        -- intros (pre & post & Heq & Hl & Hpre). destruct pre as [|x pre].
           ++ simpl in Heq. injection Heq as <- <-. by left.
           ++ simpl in Heq. injection Heq as <- ->. right. exists pre, post.
              rewrite fmap_cons, not_elem_of_cons in Hpre.
              split_and!; [done|set_solver|naive_solver].
Qed.

Lemma filter_new_loop_all_seen reviews seen :
  sliceable h reviews →
  list_to_set (fp <$> reviews) ⊆ seen →
  filter_new_loop hash h reviews [] seen = (Ok [], seen).
Proof.
  induction reviews as [|l reviews IH]; intros Hall Hsub; simpl; [done|].
  apply sliceable_cons in Hall as [Hl Hall].
  rewrite (review_id_returns _ Hl).
  rewrite decide_True by set_solver. apply IH; [done|set_solver].
Qed.

(** The loop on reviews the first of which without an id is [l]: the ids
    of the reviews before it have been added when the exception leaves the
    loop. *)
Lemma filter_new_loop_raises pre l post seen :
  sliceable h pre →
  r_text (h l) = Null →
  filter_new_loop hash h (pre ++ l :: post) [] seen
  = (Raise none_not_subscriptable, seen ∪ list_to_set (fp <$> pre)).
Proof.
  revert seen. induction pre as [|l0 pre IH]; intros seen Hall Hl; simpl.
  - rewrite (review_id_raises _ Hl). f_equal. set_solver.
  - apply sliceable_cons in Hall as [Hl0 Hall].
    rewrite (review_id_returns _ Hl0). case_decide as Hin.
    + rewrite (IH seen Hall Hl). f_equal. set_solver.
    + rewrite filter_new_loop_acc, (IH _ Hall Hl). simpl. f_equal. set_solver.
Qed.

(** The loop returns exactly when every review has an id; in any case the
    set of ids only grows, by ids of the reviews. *)
Lemma filter_new_loop_outcome reviews seen :
  let out := filter_new_loop hash h reviews [] seen in
  match out.1 with
  | Ok _ => sliceable h reviews
  | Raise e => e = none_not_subscriptable ∧ ¬ sliceable h reviews
  end
  ∧ seen ⊆ out.2
  ∧ out.2 ⊆ seen ∪ list_to_set (fp <$> reviews).
Proof.
  revert seen. induction reviews as [|l reviews IH]; intros seen; simpl.
  - split_and!; [by intros l ?%elem_of_nil|set_solver|set_solver].
  - assert (r_text (h l) = Null ∨ r_text (h l) ≠ Null) as [Ht|Hl]
      by (destruct (r_text (h l)); [by right|by left|by right]).
    + rewrite (review_id_raises _ Ht). simpl.
      split; [|split; set_solver].
      split; [done|]. by intros [? _]%sliceable_cons.
    + rewrite (review_id_returns _ Hl). case_decide as Hin.
      * destruct (IH seen) as (Hout & Hlow & Hup).
        split; [|split; set_solver].
        destruct (filter_new_loop hash h reviews [] seen).1.
        -- by apply sliceable_cons.
        -- destruct Hout as [-> Hno]. split; [done|].
           by intros [_ ?]%sliceable_cons.
      * rewrite filter_new_loop_acc. simpl.
        destruct (IH ({[fp l]} ∪ seen)) as (Hout & Hlow & Hup).
        split; [|split; set_solver].
        destruct (filter_new_loop hash h reviews [] _).1.
        -- by apply sliceable_cons.
        -- destruct Hout as [-> Hno]. split; [done|].
           by intros [_ ?]%sliceable_cons.
Qed.

End DedupFacts.

Section ScraperFacts.

(** C5, at the failing input: a review with a text followed by a review
    whose [text] holds [None], for a place the index does not know.
    [_filter_new_reviews] returns no list: [_get_review_id] slices the
    [None] and the [TypeError] leaves the loop, with the id of the first
    review already in the index.  The cleaner reads the same review as one
    without text. *)
Theorem filter_new_raises_on_none_text :
  let out := _filter_new_reviews sum_hash then_textless fresh_scraper
                                 [0; 1]%nat (u "place") in
  r_text (then_textless 1%nat) = Null
  ∧ out.1 = Raise none_not_subscriptable
  ∧ exn_cls none_not_subscriptable = TypeError
  ∧ scraped_review_ids out.2 !! u "place"
    = Some {[ fingerprint sum_hash then_textless 0%nat ]}
  ∧ judge (then_textless 1%nat) = NoText.
Proof.
  intros out. subst out. unfold _filter_new_reviews.
  rewrite (filter_new_loop_raises sum_hash then_textless [0%nat] 1%nat []);
    [|by intros l ->%list_elem_of_singleton|done].
  cbn [fst snd scraped_review_ids]. rewrite lookup_insert_eq.
  by split_and!.
Qed.

(** X22.  On reviews none of which has a [text] that holds [None],
    [_filter_new_reviews] returns, in input order, the first occurrence of
    every fingerprint that the set of the place does not hold, and adds
    the fingerprints of all the reviews to that set.  A second call with
    the same reviews, or with any one of them, returns nothing; after
    [reset_cache_for_location] a review is returned again. *)
Theorem filter_new_semantics (hash : str → Z) (h : Heap) (s : Scraper)
    (reviews : list loc) (place_id : str) :
  sliceable h reviews →
  let fp := fingerprint hash h in
  let seen := default ∅ (scraped_review_ids s !! place_id) in
  let out := _filter_new_reviews hash h s reviews place_id in
  ∃ new,
    out.1 = Ok new
    ∧ (∀ l, l ∈ new ↔ first_new fp seen reviews l)
    ∧ NoDup (fp <$> new)
    ∧ new `sublist_of` reviews
    ∧ scraped_review_ids out.2
      = <[place_id := seen ∪ list_to_set (fp <$> reviews)]> (scraped_review_ids s)
    ∧ (_filter_new_reviews hash h out.2 reviews place_id).1 = Ok []
    ∧ (∀ l, l ∈ reviews →
         (_filter_new_reviews hash h out.2 [l] place_id).1 = Ok [])
    ∧ (∀ l, l ∈ reviews →
         (_filter_new_reviews hash h
            (reset_cache_for_location out.2 place_id).2 [l] place_id).1
         = Ok [l]).
Proof.
  intros Hall fp seen out. subst out. unfold _filter_new_reviews.
  cbn [fst snd scraped_review_ids]. fold seen.
  destruct (filter_new_loop_spec hash h reviews seen Hall)
    as (new & Hrun & Hsub & Hnd & Hmem).
  rewrite Hrun. cbn [fst snd]. exists new. split_and!; try done.
  - rewrite lookup_insert_eq. cbn [default from_option id].
    rewrite filter_new_loop_all_seen; [done|done|set_solver].
  - intros l Hl. rewrite lookup_insert_eq. cbn [default from_option id].
    rewrite filter_new_loop_all_seen; [done| |].
    + by intros l' ->%list_elem_of_singleton; apply Hall.
    + apply elem_of_subseteq. intros x Hx.
      apply elem_of_list_to_set, list_elem_of_fmap in Hx as (l' & -> & Hl').
      apply list_elem_of_singleton in Hl' as ->.
      apply elem_of_union_r, elem_of_list_to_set, list_elem_of_fmap.
      by exists l.
  - intros l Hl. unfold reset_cache_for_location.
    cbn [scraped_review_ids]. rewrite lookup_insert_eq.
    cbn [fst snd _save_cache scraped_review_ids]. rewrite lookup_delete_eq.
    cbn [default from_option id filter_new_loop].
    rewrite (review_id_returns hash h l (Hall l Hl)).
    by rewrite decide_False by set_solver.
Qed.

(** X22, the witness: four reviews, one of them without the key [text]. *)
Lemma filter_new_semantics_witness :
  ∃ new,
    (_filter_new_reviews sum_hash mixed_reviews fresh_scraper [0; 1; 2; 3]%nat
                         (u "place")).1 = Ok new
    ∧ NoDup (fingerprint sum_hash mixed_reviews <$> new)
    ∧ new `sublist_of` [0; 1; 2; 3]%nat.
Proof.
  destruct (filter_new_semantics sum_hash mixed_reviews fresh_scraper
              [0; 1; 2; 3]%nat (u "place")) as (new & Hnew & _ & Hnd & Hsub & _).
  - intros l _ Hn. destruct l as [|[|[|l]]]; discriminate Hn.
  - exists new. split; [exact Hnew|]. split; [exact Hnd|exact Hsub].
Defined.

(** C9, as amended.  When the cache file can be written, every operation
    that changes the index and writes has the whole index in the file when
    it returns: the deduplication step of [scrape_location]
    ([_filter_new_reviews] followed by [_save_cache]) when it returns its
    list, a [scrape_location] that succeeds, [reset_cache_for_location] for
    a place the index knows, and [reset_all_cache]. *)
Theorem write_through_persistence (hash : str → Z) (h : Heap) (s : Scraper) :
  fs_write (fs s) = WriteOk →
  (∀ reviews place_id new,
     (dedup_step hash h s reviews place_id).1 = Ok new →
     persisted (dedup_step hash h s reviews place_id).2)
  ∧ (∀ run skip_duplicates d,
       (scrape_location hash h s run skip_duplicates).1.1 = ScrapeSuccess d →
       let s' := (scrape_location hash h s run skip_duplicates).1.2 in
       s' = s ∨ persisted s')
  ∧ (∀ place_id,
       let s' := (reset_cache_for_location s place_id).2 in
       match scraped_review_ids s !! place_id with
       | Some _ =>
           scraped_review_ids s' = delete place_id (scraped_review_ids s)
           ∧ persisted s'
       | None => s' = s
       end)
  ∧ scraped_review_ids (reset_all_cache s) = ∅
  ∧ persisted (reset_all_cache s).
Proof.
  intros Hw.
  assert (∀ reviews place_id new,
            (dedup_step hash h s reviews place_id).1 = Ok new →
            persisted (dedup_step hash h s reviews place_id).2) as Hstep.
  { intros reviews place_id new. unfold dedup_step.
    destruct (_filter_new_reviews hash h s reviews place_id).1 eqn:Hout;
      [|done].
    intros _. unfold persisted. cbn [fst snd _save_cache fs fs_file fs_write].
    unfold _filter_new_reviews. cbn [snd fs]. by rewrite Hw. }
  split_and!.
  - exact Hstep.
  - intros run skip d. unfold scrape_location.
    destruct run as [e|[|ld items]]; [done|done|].
    destruct (get_or (ld_reviews ld) []) as [reviews|]; [|done].
    destruct (ld_placeId ld) as [[|c p]|]; cbn [fst snd]; [by left| |by left].
    destruct skip; cbn [fst snd]; [|by left].
    destruct (dedup_step hash h s reviews (c :: p)).1 as [new|e] eqn:Hout;
      [|done].
    intros _. right. by eapply Hstep.
  - intros place_id. unfold reset_cache_for_location, persisted.
    destruct (scraped_review_ids s !! place_id); simpl; [|done].
    by rewrite Hw.
  - done.
  - unfold reset_all_cache, persisted. simpl. by rewrite Hw.
Qed.

(** C9, the witness: a first review of a place, on a writable file. *)
Lemma write_through_persistence_witness :
  persisted (dedup_step zero_hash one_review fresh_scraper [0%nat] (u "place")).2.
Proof.
  eapply (write_through_persistence zero_hash one_review fresh_scraper).
  - reflexivity.
  - vm_compute. reflexivity.
Defined.

(** C9, the counterexample: [_filter_new_reviews] changes the index and
    returns without writing it; the file still holds the old index. *)
Lemma filter_new_alone_does_not_persist :
  persisted fresh_scraper
  ∧ scraped_review_ids
      (_filter_new_reviews zero_hash one_review fresh_scraper [0%nat] (u "place")).2
    ≠ scraped_review_ids fresh_scraper
  ∧ ¬ persisted
        (_filter_new_reviews zero_hash one_review fresh_scraper [0%nat] (u "place")).2.
Proof.
  split; [reflexivity|]. split.
  - unfold _filter_new_reviews, fresh_scraper. cbn [snd scraped_review_ids].
    intros Heq. apply (f_equal (lookup (u "place"))) in Heq.
    by rewrite lookup_insert_eq, lookup_empty in Heq.
  - unfold persisted, serialize, _filter_new_reviews, fresh_scraper.
    cbn [snd scraped_review_ids fs fs_file]. intros Heq.
    apply (f_equal (λ f, match f with
                         | Saved data => data !! u "place"
                         | _ => None
                         end)) in Heq.
    by rewrite lookup_fmap, lookup_insert_eq, lookup_empty in Heq.
Qed.

End ScraperFacts.


(** ** The smart batch endpoint *)

Section BatchFacts.
Context {DB : Type} `{Database DB}.
Variable engine : nat → AnalysisRequest → result SentimentResult.

Lemma check_review_spec (db : DB) force idx rev acc :
  check_review db force idx rev acc
  = {| p_results :=
         p_results acc
         ++ match cache_hit db force idx rev with
            | Some row => [FromCache row]
            | None => []
            end;
       p_skipped :=
         p_skipped acc
         ++ match cache_hit db force idx rev with
            | Some _ => [already_analyzed (review_id_of idx rev)]
            | None => []
            end;
       p_to_analyze :=
         p_to_analyze acc
         ++ if needs_analysis db force idx rev then [request_of idx rev] else [] |}.
Proof.
  unfold check_review, needs_analysis, cache_hit, to_analyze.
  destruct acc as [rs sk td]. simpl.
  destruct (review_text_of rev) as [|c t] eqn:Et.
  { by rewrite !app_nil_r. }
  destruct (negb force && is_analyzed db (review_id_of idx rev) (c :: t)).
  - destruct (get_analysis db (review_id_of idx rev)); simpl;
      by rewrite ?app_nil_r.
  - simpl. by rewrite !app_nil_r.
Qed.

Lemma check_reviews_spec (db : DB) force reviews idx acc :
  check_reviews db force idx reviews acc
  = {| p_results :=
         p_results acc ++ (FromCache ∘ snd <$> hits_from db force idx reviews);
       p_skipped :=
         p_skipped acc
         ++ (already_analyzed ∘ fst <$> hits_from db force idx reviews);
       p_to_analyze := p_to_analyze acc ++ todo_from db force idx reviews |}.
Proof.
  revert idx acc. induction reviews as [|rev rest IH]; intros idx acc; simpl.
  - destruct acc. simpl. by rewrite !app_nil_r.
  - rewrite IH, check_review_spec. simpl.
    destruct (cache_hit db force idx rev), (needs_analysis db force idx rev);
      simpl; by rewrite <- ?(assoc_L (++)), ?app_nil_r.
Qed.

Lemma hits_from_lookup (db : DB) force reviews idx i rev row :
  reviews !! i = Some rev →
  cache_hit db force (idx + i) rev = Some row →
  (review_id_of (idx + i) rev, row) ∈ hits_from db force idx reviews.
Proof.
  revert idx i. induction reviews as [|rev0 rest IH]; intros idx i Hi Hhit;
    [done|].
  destruct i as [|i]; simpl in *.
  - injection Hi as ->. rewrite Nat.add_0_r in Hhit |- *. rewrite Hhit. by left.
  - replace (idx + S i)%nat with (S idx + i)%nat in * by lia.
    destruct (cache_hit db force idx rev0); [right|]; by apply IH.
Qed.

Lemma todo_from_lookup (db : DB) force reviews idx i rev :
  reviews !! i = Some rev →
  needs_analysis db force (idx + i) rev = true →
  request_of (idx + i) rev ∈ todo_from db force idx reviews.
Proof.
  revert idx i. induction reviews as [|rev0 rest IH]; intros idx i Hi Hn;
    [done|].
  destruct i as [|i]; simpl in *.
  - injection Hi as ->. rewrite Nat.add_0_r in Hn |- *. rewrite Hn. by left.
  - replace (idx + S i)%nat with (S idx + i)%nat in * by lia.
    destruct (needs_analysis db force idx rev0); [right|]; by apply IH.
Qed.

Lemma todo_from_elem (db : DB) force reviews idx rq :
  rq ∈ todo_from db force idx reviews →
  ∃ i rev, reviews !! i = Some rev
           ∧ rq = request_of (idx + i) rev
           ∧ needs_analysis db force (idx + i) rev = true.
Proof.
  revert idx. induction reviews as [|rev0 rest IH]; intros idx Hin; simpl in *.
  - by apply elem_of_nil in Hin.
  - destruct (needs_analysis db force idx rev0) eqn:Hn.
    + apply elem_of_cons in Hin as [->|Hin].
      * exists 0%nat, rev0. by rewrite Nat.add_0_r.
      * destruct (IH _ Hin) as (i & rev & Hi & -> & Hn').
        exists (S i), rev. by replace (idx + S i)%nat with (S idx + i)%nat by lia.
    + destruct (IH _ Hin) as (i & rev & Hi & -> & Hn').
      exists (S i), rev. by replace (idx + S i)%nat with (S idx + i)%nat by lia.
Qed.

Lemma hits_todo_length (db : DB) force reviews idx :
  (length (hits_from db force idx reviews)
   + length (todo_from db force idx reviews) ≤ length reviews)%nat.
Proof.
  revert idx. induction reviews as [|rev rest IH]; intros idx; simpl; [done|].
  specialize (IH (S idx)). unfold needs_analysis.
  destruct (cache_hit db force idx rev) eqn:Hc; simpl.
  - destruct (review_text_of rev); simpl; lia.
  - destruct (review_text_of rev); simpl; lia.
Qed.

Lemma gather_length idx todo : length (gather engine idx todo) = length todo.
Proof. revert idx. induction todo; intros; simpl; auto. Qed.

Lemma store_completed_spec completed idx (st st' : Progress (DB := DB)) :
  store_completed idx completed st = (st', None) →
  ∃ added errs,
    g_results st' = g_results st ++ added
    ∧ g_errors st' = g_errors st ++ errs
    ∧ all_analyzed added
    ∧ (length added + length errs = length completed)%nat.
Proof.
  revert idx st. induction completed as [|[r|e] rest IH]; intros idx st Hrun;
    simpl in Hrun.
  - injection Hrun as <-. exists [], []. rewrite !app_nil_r. by repeat constructor.
  - destruct (save_analysis (g_db st) r) as [saved|e]; [|done].
    destruct (IH _ _ Hrun) as (added & errs & Hr & He & Ha & Hl). simpl in *.
    exists (Analyzed r saved.1 :: added), errs.
    rewrite Hr, He, <- (assoc_L (++)). split_and!; try done.
    + by constructor.
    + simpl. lia.
  - destruct (IH _ _ Hrun) as (added & errs & Hr & He & Ha & Hl). simpl in *.
    exists added, (ErrIndex idx (exn_str e) :: errs).
    rewrite Hr, He, <- (assoc_L (++)). split_and!; try done. simpl. lia.
Qed.

Lemma analyze_each_spec todo idx (st : Progress (DB := DB)) :
  ∃ added errs,
    g_results (analyze_each engine idx todo st) = g_results st ++ added
    ∧ g_errors (analyze_each engine idx todo st) = g_errors st ++ errs
    ∧ all_analyzed added
    ∧ (length added + length errs = length todo)%nat.
Proof.
  revert idx st. induction todo as [|rq rest IH]; intros idx st; simpl.
  - exists [], []. rewrite !app_nil_r. by repeat constructor.
  - match goal with |- context [analyze_each engine (S idx) rest ?st1] =>
      destruct (IH (S idx) st1) as (added & errs & Hr & He & Ha & Hl) end.
    rewrite Hr, He.
    destruct (engine idx rq) as [r|e]; simpl.
    + destruct (save_analysis (g_db st) r) as [saved|e]; simpl.
      * exists (Analyzed r saved.1 :: added), errs.
        rewrite <- (assoc_L (++)). split_and!; try done.
        -- by constructor.
        -- simpl. lia.
      * exists added, (ErrId (ar_id rq) (exn_str e) :: errs).
        rewrite <- (assoc_L (++)). split_and!; try done. simpl. lia.
    + exists added, (ErrId (ar_id rq) (exn_str e) :: errs).
      rewrite <- (assoc_L (++)). split_and!; try done. simpl. lia.
Qed.

Lemma smart_batch_success clk (db : DB) data o :
  run_response (smart_batch_analyze engine clk db data) = Success o →
  let reviews := default [] (rq_reviews data) in
  let force := default false (rq_force_reanalyze data) in
  let hits := hits_from db force 0 reviews in
  let todo := todo_from db force 0 reviews in
  ∃ added errs,
    results o = (FromCache ∘ snd <$> hits) ++ added
    ∧ all_analyzed added
    ∧ (length added + length errs = length todo)%nat
    ∧ total_reviews o = length reviews
    ∧ processed o = length (results o)
    ∧ newly_analyzed o = length todo
    ∧ from_cache o = length hits
    ∧ failed o = length errs
    ∧ skipped o = or_none (already_analyzed ∘ fst <$> hits)
    ∧ errors o = or_none errs.
Proof.
  unfold smart_batch_analyze.
  destruct (default [] (rq_reviews data)) as [|rev0 rest] eqn:Hrev; [done|].
  rewrite check_reviews_spec. cbn [p_results p_skipped p_to_analyze].
  rewrite !app_nil_l.
  set (force := default false (rq_force_reanalyze data)).
  set (hits := hits_from db force 0 (rev0 :: rest)).
  set (todo := todo_from db force 0 (rev0 :: rest)).
  destruct (default true (rq_parallel_processing data)).
  - destruct (store_completed 0 (gather engine 0 todo) _) as [st [e|]] eqn:Hrun;
      [done|].
    intros [= <-]. simpl.
    destruct (store_completed_spec _ _ _ _ Hrun) as (added & errs & Hr & He & Ha & Hl).
    simpl in Hr, He. rewrite gather_length in Hl.
    exists added, errs. rewrite Hr, He, !length_fmap. by split_and!.
  - intros [= <-]. simpl.
    match goal with |- context [analyze_each engine 0 todo ?st0] =>
      destruct (analyze_each_spec todo 0 st0) as (added & errs & Hr & He & Ha & Hl)
    end.
    simpl in Hr, He. exists added, errs. rewrite Hr, He, !length_fmap.
    by split_and!.
Qed.

Lemma smart_batch_calls clk (db : DB) data rev0 rest :
  default [] (rq_reviews data) = rev0 :: rest →
  run_engine_calls (smart_batch_analyze engine clk db data)
  = todo_from db (default false (rq_force_reanalyze data)) 0 (rev0 :: rest).
Proof.
  intros Hrev. unfold smart_batch_analyze. rewrite Hrev.
  rewrite check_reviews_spec. cbn [p_to_analyze]. rewrite app_nil_l.
  destruct (default true (rq_parallel_processing data)).
  - by destruct (store_completed _ _ _) as [st [e|]].
  - done.
Qed.

End BatchFacts.

Section BatchClaims.
Context {DB : Type} `{Database DB}.
Variable engine : nat → AnalysisRequest → result SentimentResult.

(** C1, as amended.  For a review with a non-empty text whose id has a
    stored row: when the stored text equals the text of the review, the
    engine is not called with that id and text, and every successful
    outcome lists the stored row in [results], marked as from the cache,
    and the id in [skipped]; when the texts differ, the review is among
    the requests the engine is called with. *)
Theorem cache_hit_exactness (clk : Clock) (db : DB) (data : BatchRequest)
    (reviews : list ReviewIn) (i : nat) (rev : ReviewIn) (row : Row) :
  rq_reviews data = Some reviews →
  default false (rq_force_reanalyze data) = false →
  reviews !! i = Some rev →
  review_text_of rev ≠ [] →
  get_analysis db (review_id_of i rev) = Some row →
  let run := smart_batch_analyze engine clk db data in
  (row_review_text row = review_text_of rev →
     (∀ rq, rq ∈ run_engine_calls run →
        ¬ (ar_id rq = review_id_of i rev ∧ ar_review rq = review_text_of rev))
     ∧ (∀ o, run_response run = Success o →
          FromCache row ∈ results o
          ∧ ∃ sk, skipped o = Some sk
                  ∧ already_analyzed (review_id_of i rev) ∈ sk))
  ∧ (row_review_text row ≠ review_text_of rev →
     request_of i rev ∈ run_engine_calls run).
Proof.
  intros Hdata Hforce Hi Htext Hget run.
  assert (∃ rev0 rest, reviews = rev0 :: rest) as (rev0 & rest & Hcons).
  { destruct reviews; [done|eauto]. }
  assert (default [] (rq_reviews data) = rev0 :: rest) as Hrev
    by (by rewrite Hdata, Hcons).
  assert (run_engine_calls run
          = todo_from db false 0 reviews) as Hcalls.
  { unfold run. rewrite (smart_batch_calls engine clk db data rev0 rest Hrev).
    by rewrite Hforce, Hcons. }
  split.
  - intros Hsame.
    assert (cache_hit db false i rev = Some row) as Hhit.
    { unfold cache_hit, is_analyzed. destruct (review_text_of rev) eqn:Et; [done|].
      rewrite Hget, bool_decide_true by done. done. }
    split.
    + intros rq Hrq [Hid Htx]. rewrite Hcalls in Hrq.
      apply todo_from_elem in Hrq as (j & revj & Hj & -> & Hn).
      simpl in Hid, Htx, Hn. unfold needs_analysis, cache_hit, is_analyzed in Hn.
      rewrite Hid, Htx, Hget, bool_decide_true in Hn by done.
      by destruct (review_text_of rev).
    + intros o Ho. unfold run in Ho.
      destruct (smart_batch_success engine clk db data o Ho)
        as (added & errs & Hr & _ & _ & _ & _ & _ & _ & _ & Hsk & _).
      rewrite Hdata, Hforce in Hr, Hsk. simpl in Hr, Hsk.
      pose proof (hits_from_lookup db false reviews 0 i rev row Hi Hhit) as Hin.
      simpl in Hin. split.
      * rewrite Hr. apply elem_of_app. left.
        apply list_elem_of_fmap. by exists (review_id_of i rev, row).
      * assert (already_analyzed (review_id_of i rev)
                ∈ already_analyzed ∘ fst <$> hits_from db false 0 reviews) as Hs.
        { apply list_elem_of_fmap. by exists (review_id_of i rev, row). }
        destruct (already_analyzed ∘ fst <$> hits_from db false 0 reviews)
          as [|x l] eqn:El; [by apply elem_of_nil in Hs|].
        rewrite Hsk. by exists (x :: l).
  - intros Hdiff. rewrite Hcalls.
    apply (todo_from_lookup db false reviews 0 i rev Hi). simpl.
    unfold needs_analysis, cache_hit, is_analyzed.
    destruct (review_text_of rev) eqn:Et; [done|].
    by rewrite Hget, bool_decide_false.
Qed.

(** C4, as amended.  In every successful outcome [total_reviews] is the
    length of the input, [from_cache] the number of cache hits,
    [newly_analyzed] the number of reviews sent to the engine, [failed]
    the length of the error list, and [processed] the number of results:
    the cache hits plus the analyses that did not fail. *)
Theorem batch_outcome_aggregates (clk : Clock) (db : DB) (data : BatchRequest)
    (o : BatchOutcome) :
  run_response (smart_batch_analyze engine clk db data) = Success o →
  let reviews := default [] (rq_reviews data) in
  let force := default false (rq_force_reanalyze data) in
  (total_reviews o = length reviews
   ∧ from_cache o = length (hits_from db force 0 reviews)
   ∧ newly_analyzed o = length (todo_from db force 0 reviews)
   ∧ failed o = length (default [] (errors o))
   ∧ failed o ≤ newly_analyzed o
   ∧ processed o = from_cache o + (newly_analyzed o - failed o)
   ∧ processed o = length (results o)
   ∧ length (List.filter entry_from_cache (results o)) = from_cache o
   ∧ length (List.filter (λ e, negb (entry_from_cache e)) (results o))
     = newly_analyzed o - failed o
   ∧ from_cache o + newly_analyzed o ≤ total_reviews o)%nat.
Proof.
  intros Ho reviews force.
  destruct (smart_batch_success engine clk db data o Ho)
    as (added & errs & Hr & Ha & Hl & Ht & Hp & Hn & Hf & Hfa & Hsk & He).
  fold reviews force in Hr, Hl, Ht, Hn, Hf, Hsk.
  assert (default [] (errors o) = errs) as ->.
  { rewrite He. by destruct errs. }
  assert (List.filter entry_from_cache added = []) as Hfa1.
  { clear -Ha. induction Ha as [|e l He _ IH]; [done|]. simpl. by rewrite He. }
  assert (List.filter (λ e, negb (entry_from_cache e)) added = added) as Hfa2.
  { clear -Ha. induction Ha as [|e l He _ IH]; [done|]. simpl. by rewrite He, IH. }
  assert (∀ l : list (str * Row),
            List.filter entry_from_cache (FromCache ∘ snd <$> l)
            = FromCache ∘ snd <$> l) as Hfh1.
  { induction l as [|x l IH]; [done|]. simpl in *. by f_equal. }
  assert (∀ l : list (str * Row),
            List.filter (λ e, negb (entry_from_cache e)) (FromCache ∘ snd <$> l)
            = []) as Hfh2.
  { induction l as [|x l IH]; [done|]. simpl in *. done. }
  pose proof (hits_todo_length db force reviews 0) as Hle.
  rewrite Hp, Hr, !List.filter_app, Hfa1, Hfa2, Hfh1, Hfh2, !length_app,
    !length_fmap, Hf, Hn, Hfa, Ht. simpl. split_and!; lia.
Qed.

End BatchClaims.

Section BatchExamples.

(** C1, the witness: the stored review "Great service" under R1. *)
Lemma cache_hit_exactness_witness :
  let rev := review_in "R1" "Great service" in
  let db := table_with "R1" "Great service" in
  let run := smart_batch_analyze offline_engine tick db (batch_of [rev]) in
  (row_review_text (stored_row "R1" "Great service") = review_text_of rev →
     (∀ rq, rq ∈ run_engine_calls run →
        ¬ (ar_id rq = review_id_of 0 rev ∧ ar_review rq = review_text_of rev))
     ∧ (∀ o, run_response run = Success o →
          FromCache (stored_row "R1" "Great service") ∈ results o
          ∧ ∃ sk, skipped o = Some sk
                  ∧ already_analyzed (review_id_of 0 rev) ∈ sk))
  ∧ (row_review_text (stored_row "R1" "Great service") ≠ review_text_of rev →
     request_of 0 rev ∈ run_engine_calls run).
Proof.
  apply (cache_hit_exactness offline_engine tick
           (table_with "R1" "Great service")
           (batch_of [review_in "R1" "Great service"])
           [review_in "R1" "Great service"] 0
           (review_in "R1" "Great service")
           (stored_row "R1" "Great service")).
  - reflexivity.
  - reflexivity.
  - reflexivity.
  - discriminate.
  - vm_compute. reflexivity.
Defined.

(** C1, the counterexample: a review with an empty text is dropped before
    the store is asked, also when the store holds its id with that text. *)
Lemma stored_empty_text_is_no_cache_hit :
  let rev := review_in "R1" "" in
  let db := table_with "R1" "" in
  let run := smart_batch_analyze offline_engine tick db (batch_of [rev]) in
  get_analysis db (review_id_of 0 rev) = Some (stored_row "R1" "")
  ∧ row_review_text (stored_row "R1" "") = review_text_of rev
  ∧ ∃ o, run_response run = Success o
         ∧ results o = []
         ∧ from_cache o = 0%nat
         ∧ skipped o = None.
Proof.
  split; [vm_compute; reflexivity|]. split; [reflexivity|].
  eexists. split; [vm_compute; reflexivity|]. by split_and!.
Qed.

(** C4, the counterexample: an empty batch is answered by a failure, which
    carries no aggregate. *)
Lemma empty_batch_has_no_aggregates :
  run_response
    (smart_batch_analyze offline_engine tick (table_with "R1" "Great service")
                         (batch_of []))
  = Failure (u "reviews array required").
Proof. reflexivity. Qed.

(** C4, the witness: a cache hit, an empty text and a review whose result
    cannot be saved. *)
Lemma batch_outcome_aggregates_witness :
  let data :=
    sequential_batch_of
      [review_in "R1" "Great service"; review_in "R2" "";
       review_in "R3" "pelayanan lambat"] in
  let db := table_with "R1" "Great service" in
  ∃ o, run_response (smart_batch_analyze offline_engine tick db data) = Success o
       ∧ (total_reviews o = 3 ∧ from_cache o = 1 ∧ newly_analyzed o = 1
          ∧ failed o = 1 ∧ processed o = 1)%nat
       ∧ (processed o = from_cache o + (newly_analyzed o - failed o))%nat.
Proof.
  intros data db. eexists. split; [vm_compute; reflexivity|].
  split; [by split_and!|].
  eapply (batch_outcome_aggregates offline_engine tick db data).
  vm_compute. reflexivity.
Defined.

End BatchExamples.

(** ** More on the review cleaner *)

Section CleanerMore.

Lemma is_kept_is_valid_review (review : RawReview) :
  is_kept review = is_valid_review review.
Proof.
  unfold is_kept, cleaned_text, judge, has_only_images, is_valid_review.
  destruct (strip (text_of review)) as [|a [|b [|c t]]]; simpl;
    by destruct (truthy_list _ || truthy_list _).
Qed.

Lemma filter_step_counts c l :
  let v := judge (c_heap c l) in
  let n (b : bool) := if b then 1%nat else 0%nat in
  only_images (c_stats (filter_step c l))
  = (only_images (c_stats c) + n (is_only_images v))%nat
  ∧ no_text (c_stats (filter_step c l))
    = (no_text (c_stats c) + n (is_no_text v))%nat
  ∧ too_short (c_stats (filter_step c l))
    = (too_short (c_stats c) + n (is_too_short v))%nat
  ∧ valid (c_stats (filter_step c l)) = (valid (c_stats c) + n (is_valid v))%nat.
Proof. unfold filter_step. destruct (judge (c_heap c l)); simpl; lia. Qed.

(** The loop reads a dictionary the first time as the caller left it. *)
Lemma cleaning_loop_counts c reviews :
  NoDup reviews →
  let c' := cleaning_loop c reviews in
  let h := c_heap c in
  only_images (c_stats c')
  = (only_images (c_stats c) + category_count h reviews is_only_images)%nat
  ∧ no_text (c_stats c')
    = (no_text (c_stats c) + category_count h reviews is_no_text)%nat
  ∧ too_short (c_stats c')
    = (too_short (c_stats c) + category_count h reviews is_too_short)%nat
  ∧ valid (c_stats c')
    = (valid (c_stats c) + category_count h reviews is_valid)%nat.
Proof.
  unfold category_count.
  induction reviews as [|l reviews IH] using rev_ind; intros Hnd; simpl.
  - lia.
  - apply NoDup_app in Hnd as (Hnd & Hnotin & _).
    specialize (IH Hnd). simpl in IH. destruct IH as (Ho & Hn & Hs & Hv).
    unfold cleaning_loop in *. rewrite fold_left_app. simpl.
    rewrite !List.filter_app, !length_app. simpl.
    destruct (cleaning_loop_spec c reviews) as (kept & _ & Hsub & Hframe & _).
    unfold cleaning_loop in Hframe.
    assert (l ∉ kept) as Hlk.
    { intros Hin. apply (Hnotin l); [|by left]. by eapply elem_of_sublist. }
    destruct (filter_step_counts (fold_left filter_step reviews c) l)
      as (Ho' & Hn' & Hs' & Hv').
    rewrite (Hframe l Hlk) in Ho', Hn', Hs', Hv'.
    rewrite Ho', Hn', Hs', Hv', Ho, Hn, Hs, Hv.
    destruct (judge (c_heap c l)); simpl; lia.
Qed.

(** X1.  On a list of distinct dictionaries, each counter [filter_reviews]
    returns is the number of input dictionaries of its category
    ([only_images], [no_text], [too_short], [valid]), judged on the
    dictionaries as the caller passed them, and [valid_reviews] is the
    input filtered by [is_valid_review], in order. *)
Theorem filter_reviews_counts_categories (h : Heap) (reviews : list loc) :
  NoDup reviews →
  let c := filter_reviews h reviews in
  only_images (c_stats c) = category_count h reviews is_only_images
  ∧ no_text (c_stats c) = category_count h reviews is_no_text
  ∧ too_short (c_stats c) = category_count h reviews is_too_short
  ∧ valid (c_stats c) = category_count h reviews is_valid
  ∧ c_valid_reviews c = List.filter (λ l, is_valid_review (h l)) reviews.
Proof.
  intros Hnd. unfold filter_reviews.
  match goal with |- context [fold_left filter_step reviews ?c0] =>
    pose proof (cleaning_loop_counts c0 reviews Hnd) as Hc;
    destruct (cleaning_loop_spec c0 reviews) as (kept & Hv & _ & _ & _ & _ & Hk)
  end.
  unfold cleaning_loop in *. simpl in *.
  destruct Hc as (-> & -> & -> & ->). destruct (Hk Hnd) as [-> _].
  rewrite Hv. split_and!; try done.
  clear. induction reviews as [|l reviews IH]; [done|]. simpl.
  by rewrite is_kept_is_valid_review, IH.
Qed.

End CleanerMore.

Section StripFacts.

Lemma lstrip_head s c t : lstrip s = c :: t → isspace c = false.
Proof.
  induction s as [|a s IH]; simpl; [done|].
  destruct (isspace a) eqn:Ha; [done|]. by intros [= <- _].
Qed.

Lemma lstrip_snoc l c :
  isspace c = false → ∃ l', lstrip (l ++ [c]) = l' ++ [c].
Proof.
  intros Hc. induction l as [|a l IH]; simpl.
  - rewrite Hc. by exists [].
  - destruct (isspace a); [done|]. by exists (a :: l).
Qed.

Lemma strip_trimmed s : trimmed (strip s).
Proof.
  unfold strip, rstrip. split.
  - intros c t Heq.
    destruct (lstrip s) as [|a x] eqn:Hx; [done|].
    pose proof (lstrip_head _ _ _ Hx) as Ha.
    simpl in Heq. destruct (lstrip_snoc (rev x) a Ha) as [l' Hl'].
    rewrite Hl', rev_app_distr in Heq. simpl in Heq. by injection Heq as <- _.
  - intros c t Heq.
    apply (f_equal (λ x, rev x)) in Heq. simpl in Heq. rewrite rev_involutive, rev_app_distr in Heq.
    simpl in Heq. by eapply lstrip_head.
Qed.

(** X2.  The text [clean_review_text] returns neither starts nor ends with
    a whitespace character, whatever the input. *)
Theorem clean_review_text_trimmed (text : str) :
  trimmed (clean_review_text text).
Proof.
  unfold clean_review_text. destruct text; [|apply strip_trimmed].
  split; intros c t Heq; [done|by destruct t].
Qed.

End StripFacts.

(** ** More on the scraper's index of seen reviews *)

Section ScraperMore.
Variable hash : str → Z.

Lemma load_serialize (idx : Index) : list_to_set <$> serialize idx = idx.
Proof.
  unfold serialize. apply map_eq. intros k. rewrite !lookup_fmap.
  destruct (idx !! k) as [x|]; simpl; [|done].
  by rewrite list_to_set_elements_L.
Qed.

(** X3.  [_save_cache] followed by [_load_cache]: when the write succeeds
    a new scraper loads the index that was saved; when [open] raises it
    loads what the file held before; when [json.dump] raises it loads the
    empty index.  The index in memory is the same in all three cases. *)
Theorem save_then_load (s : Scraper) :
  match fs_write (fs s) with
  | WriteOk => _load_cache (fs (_save_cache s)) = scraped_review_ids s
  | OpenRaises => _load_cache (fs (_save_cache s)) = _load_cache (fs s)
  | DumpRaises => _load_cache (fs (_save_cache s)) = ∅
  end
  ∧ scraped_review_ids (_save_cache s) = scraped_review_ids s.
Proof.
  unfold _save_cache, _load_cache. simpl.
  destruct (fs_write (fs s)); simpl; split; try done. apply load_serialize.
Qed.

(** A call of [_filter_new_reviews] that returns. *)
Lemma filter_new_returns (h : Heap) (s : Scraper) reviews place_id new :
  (_filter_new_reviews hash h s reviews place_id).1 = Ok new →
  sliceable h reviews
  ∧ new `sublist_of` reviews
  ∧ (∀ l, l ∈ new
          ↔ first_new (fingerprint hash h)
                      (default ∅ (scraped_review_ids s !! place_id)) reviews l)
  ∧ scraped_review_ids (_filter_new_reviews hash h s reviews place_id).2
    = <[place_id := default ∅ (scraped_review_ids s !! place_id)
                    ∪ list_to_set (fingerprint hash h <$> reviews)]>
        (scraped_review_ids s).
Proof.
  unfold _filter_new_reviews. cbn [fst snd scraped_review_ids].
  set (seen := default ∅ (scraped_review_ids s !! place_id)). intros Hout.
  destruct (filter_new_loop_outcome hash h reviews seen) as (Hcase & _).
  rewrite Hout in Hcase.
  destruct (filter_new_loop_spec hash h reviews seen Hcase)
    as (new' & Hrun & Hsub & _ & Hmem).
  rewrite Hrun in Hout |- *. cbn [fst snd] in Hout |- *.
  injection Hout as <-. by split_and!.
Qed.

(** A call of [_filter_new_reviews] that raises. *)
Lemma filter_new_raised (h : Heap) (s : Scraper) reviews place_id e :
  (_filter_new_reviews hash h s reviews place_id).1 = Raise e →
  e = none_not_subscriptable ∧ ¬ sliceable h reviews.
Proof.
  unfold _filter_new_reviews. cbn [fst snd]. intros Hout.
  destruct (filter_new_loop_outcome hash h reviews
              (default ∅ (scraped_review_ids s !! place_id))) as (Hcase & _).
  by rewrite Hout in Hcase.
Qed.

(** Whether it returns or raises, [_filter_new_reviews] only adds ids, and
    only to the place. *)
Lemma filter_new_grows (h : Heap) (s : Scraper) reviews place_id other :
  let s' := (_filter_new_reviews hash h s reviews place_id).2 in
  default ∅ (scraped_review_ids s !! other)
    ⊆ default ∅ (scraped_review_ids s' !! other)
  ∧ (other ≠ place_id →
     scraped_review_ids s' !! other = scraped_review_ids s !! other)
  ∧ fs s' = fs s.
Proof.
  intros s'. subst s'. unfold _filter_new_reviews.
  cbn [fst snd scraped_review_ids fs].
  destruct (filter_new_loop_outcome hash h reviews
              (default ∅ (scraped_review_ids s !! place_id)))
    as (_ & Hlow & _).
  split_and!; [|intros Hne; by rewrite lookup_insert_ne|done].
  destruct (decide (other = place_id)) as [->|Hne].
  - by rewrite lookup_insert_eq.
  - by rewrite lookup_insert_ne.
Qed.

(** X4.  [_filter_new_reviews] only adds to the index, also when it
    raises: no id of any place is lost, the count
    [get_cached_review_count] reports does not fall, the entries of other
    places stay as they are and the file is not touched.  When the call
    returns, the count of the place is the number of distinct ids among
    those stored before and those of the reviews passed; it raises only
    the [TypeError] of a [text] that holds [None]. *)
Theorem filter_new_monotone (h : Heap) (s : Scraper) (reviews : list loc)
    (place_id other : str) :
  let out := _filter_new_reviews hash h s reviews place_id in
  default ∅ (scraped_review_ids s !! other)
    ⊆ default ∅ (scraped_review_ids out.2 !! other)
  ∧ (get_cached_review_count s other ≤ get_cached_review_count out.2 other)%nat
  ∧ (other ≠ place_id →
     scraped_review_ids out.2 !! other = scraped_review_ids s !! other)
  ∧ fs out.2 = fs s
  ∧ match out.1 with
    | Ok _ =>
        get_cached_review_count out.2 place_id
        = size (default ∅ (scraped_review_ids s !! place_id)
                ∪ list_to_set (fingerprint hash h <$> reviews))
    | Raise e =>
        e = none_not_subscriptable ∧ ∃ l, l ∈ reviews ∧ r_text (h l) = Null
    end.
Proof.
  intros out. subst out.
  destruct (filter_new_grows h s reviews place_id other) as (Hsub & Hne & Hfs).
  split_and!; [done|by apply subseteq_size|done|done|].
  destruct (_filter_new_reviews hash h s reviews place_id).1 as [new|e] eqn:Hout.
  - destruct (filter_new_returns h s reviews place_id new Hout)
      as (_ & _ & _ & Hidx).
    unfold get_cached_review_count. rewrite Hidx, lookup_insert_eq. done.
  - destruct (filter_new_raised h s reviews place_id e Hout) as [-> Hno].
    split; [done|]. clear -Hno.
    induction reviews as [|l reviews IH].
    + exfalso. apply Hno. by intros l ?%elem_of_nil.
    + destruct (r_text (h l)) eqn:Ht.
      * destruct IH as (l' & Hl' & Hn).
        { intros Hall. apply Hno. apply sliceable_cons. split; [|done].
          by rewrite Ht. }
        exists l'. split; [by right|done].
      * exists l. split; [by left|done].
      * destruct IH as (l' & Hl' & Hn).
        { intros Hall. apply Hno. apply sliceable_cons. split; [|done].
          by rewrite Ht. }
        exists l'. split; [by right|done].
Qed.

(** X5.  Two reviews with the same [reviewerId] and [publishedAtDate]
    whose texts agree on the first 50 characters get the same id from
    [_get_review_id], so on a place not yet in the index
    [_filter_new_reviews] keeps the first and drops the second as a
    duplicate. *)
Theorem fingerprint_prefix_collision (h : Heap) (s : Scraper)
    (l1 l2 : loc) (place_id : str) (t1 t2 : str) :
  r_reviewerId (h l1) = r_reviewerId (h l2) →
  r_publishedAtDate (h l1) = r_publishedAtDate (h l2) →
  get_or (r_text (h l1)) [] = Some t1 →
  get_or (r_text (h l2)) [] = Some t2 →
  take 50 t1 = take 50 t2 →
  (∃ review_id, _get_review_id hash (h l1) = Ok review_id
                ∧ _get_review_id hash (h l2) = Ok review_id)
  ∧ (scraped_review_ids s !! place_id = None →
     (_filter_new_reviews hash h s [l1; l2] place_id).1 = Ok [l1]).
Proof.
  intros Hr Hp Ht1 Ht2 Ht.
  assert (∃ review_id, _get_review_id hash (h l1) = Ok review_id
                       ∧ _get_review_id hash (h l2) = Ok review_id)
    as (review_id & H1 & H2).
  { unfold _get_review_id. rewrite Hr, Hp, Ht1, Ht2, Ht. by eexists. }
  split; [by exists review_id|]. intros Hnone.
  unfold _filter_new_reviews. cbn [fst snd filter_new_loop].
  rewrite Hnone, H1, H2. cbn [default from_option id].
  rewrite decide_False by set_solver.
  by rewrite decide_True by set_solver.
Qed.

End ScraperMore.

Section ScrapeMore.
Variable hash : str → Z.

(** A deduplication step that returns. *)
Lemma dedup_step_returns (h : Heap) (s : Scraper) reviews place_id new :
  (dedup_step hash h s reviews place_id).1 = Ok new →
  (_filter_new_reviews hash h s reviews place_id).1 = Ok new
  ∧ (dedup_step hash h s reviews place_id).2
    = _save_cache (_filter_new_reviews hash h s reviews place_id).2.
Proof.
  unfold dedup_step.
  destruct (_filter_new_reviews hash h s reviews place_id).1; [|done].
  cbn [fst snd]. by intros [= ->].
Qed.

(** A deduplication step that raises: the file is not written. *)
Lemma dedup_step_raised (h : Heap) (s : Scraper) reviews place_id e :
  (dedup_step hash h s reviews place_id).1 = Raise e →
  (dedup_step hash h s reviews place_id).2
  = (_filter_new_reviews hash h s reviews place_id).2.
Proof.
  unfold dedup_step.
  by destruct (_filter_new_reviews hash h s reviews place_id).1.
Qed.

(** A deduplication step on reviews whose ids the place already has. *)
Lemma dedup_step_all_seen (h : Heap) (s : Scraper) reviews place_id :
  sliceable h reviews →
  list_to_set (fingerprint hash h <$> reviews)
    ⊆ default ∅ (scraped_review_ids s !! place_id) →
  (dedup_step hash h s reviews place_id).1 = Ok [].
Proof.
  intros Hall Hsub. unfold dedup_step, _filter_new_reviews. cbn [fst snd].
  by rewrite filter_new_loop_all_seen.
Qed.

(** X6.  The statistics of a successful [scrape_location] add up:
    fetched = duplicates + new, the cleaner's [total] is the number of new
    reviews, the reviews returned are as many as the cleaner's [valid] and
    form a sublist of the fetched ones.  A failed scrape leaves the
    dictionaries and the cache file as they were, and the index in memory
    has lost no id: the ids added before an exception stay, unsaved.
    Without [skip_duplicates] the scraper is left as it was in both
    cases. *)
Theorem scrape_location_stats (h : Heap) (s : Scraper) (run : actor_run)
    (skip_duplicates : bool) :
  match scrape_location hash h s run skip_duplicates with
  | (ScrapeSuccess d, s', h') =>
      let st := sd_scraping_stats d in
      (raw_reviews_fetched st = duplicates_filtered st + new_reviews_found st
       ∧ total (sd_cleaning_stats d) = new_reviews_found st
       ∧ length (sd_reviews d) = valid (sd_cleaning_stats d)
       ∧ length (sd_reviews d) ≤ new_reviews_found st)%nat
      ∧ (∃ reviews,
            get_or (ld_reviews (sd_location d)) [] = Some reviews
            ∧ raw_reviews_fetched st = length reviews
            ∧ sd_reviews d `sublist_of` reviews)
      ∧ (skip_duplicates = false → s' = s)
  | (ScrapeFailure _, s', h') =>
      h' = h
      ∧ fs s' = fs s
      ∧ (∀ place_id, default ∅ (scraped_review_ids s !! place_id)
                     ⊆ default ∅ (scraped_review_ids s' !! place_id))
      ∧ (skip_duplicates = false → s' = s)
  end.
Proof.
  unfold scrape_location.
  destruct run as [e|[|ld items]]; [done|done|].
  destruct (get_or (ld_reviews ld) []) as [reviews|] eqn:Hget; [|done].
  set (deduped := match ld_placeId ld with
                  | Some (c :: p) =>
                      if skip_duplicates
                      then dedup_step hash h s reviews (c :: p)
                      else (Ok reviews, s)
                  | _ => (Ok reviews, s)
                  end).
  assert (match deduped.1 with
          | Ok new => new `sublist_of` reviews
          | Raise _ =>
              fs deduped.2 = fs s
              ∧ ∀ place_id, default ∅ (scraped_review_ids s !! place_id)
                  ⊆ default ∅ (scraped_review_ids deduped.2 !! place_id)
          end
          ∧ (skip_duplicates = false → deduped.2 = s)) as [Hcase Hs].
  { assert (match (Ok reviews, s).1 with
            | Ok new => new `sublist_of` reviews
            | Raise _ =>
                fs (Ok reviews, s).2 = fs s
                ∧ ∀ place_id, default ∅ (scraped_review_ids s !! place_id)
                    ⊆ default ∅ (scraped_review_ids
                                   (Ok reviews, s).2 !! place_id)
            end
            ∧ (skip_duplicates = false → (Ok reviews, s).2 = s)) as Hsame
      by (simpl; split; [reflexivity|done]).
    unfold deduped. destruct (ld_placeId ld) as [[|c p]|]; [done| |done].
    destruct skip_duplicates; [|done]. split; [|done].
    destruct (dedup_step hash h s reviews (c :: p)).1 as [new|e] eqn:Hout.
    - apply dedup_step_returns in Hout as [Hout _].
      by destruct (filter_new_returns hash h s reviews (c :: p) new Hout)
        as (_ & Hsub & _).
    - rewrite (dedup_step_raised h s reviews (c :: p) e Hout). split.
      + by destruct (filter_new_grows hash h s reviews (c :: p) (c :: p))
          as (_ & _ & Hfs).
      + intros place_id.
        by destruct (filter_new_grows hash h s reviews (c :: p) place_id)
          as (Hsub & _). }
  destruct deduped.1 as [new|e]; [|by destruct Hcase].
  pose proof (sublist_length _ _ Hcase) as Hlen.
  unfold filter_reviews.
  match goal with |- context [fold_left filter_step new ?c0] =>
    destruct (cleaning_loop_stats new c0) as (Ht & Hc & Hv);
    destruct (cleaning_loop_spec c0 new) as (kept & Hk & Hsub2 & _)
  end.
  unfold cleaning_loop in *. simpl in *. rewrite Hk in *.
  split_and!; try done; try lia.
  - by apply sublist_length.
  - exists reviews. split_and!; [done|done|by etrans].
Qed.

(** X7.  When a [scrape_location] with [skip_duplicates] has succeeded
    and the actor returns the same reviews of the place a second time, the
    second call succeeds with no review: all fetched reviews are counted
    as duplicates. *)
Theorem scrape_twice (h : Heap) (s : Scraper) (ld : LocationData)
    (items : list LocationData) (c : N) (p : str) (d1 : ScrapeData) :
  ld_placeId ld = Some (c :: p) →
  (scrape_location hash h s (Dataset (ld :: items)) true).1.1
  = ScrapeSuccess d1 →
  let run := Dataset (ld :: items) in
  let s1 := (scrape_location hash h s run true).1.2 in
  match (scrape_location hash h s1 run true).1.1 with
  | ScrapeSuccess d =>
      sd_reviews d = []
      ∧ new_reviews_found (sd_scraping_stats d) = 0%nat
      ∧ duplicates_filtered (sd_scraping_stats d)
        = raw_reviews_fetched (sd_scraping_stats d)
  | ScrapeFailure _ => False
  end.
Proof.
  intros Hp Hfirst run s1. subst run s1. revert Hfirst.
  unfold scrape_location. rewrite Hp.
  destruct (get_or (ld_reviews ld) []) as [reviews|]; [|done].
  destruct (dedup_step hash h s reviews (c :: p)).1 as [new|e] eqn:Hout;
    [|done].
  intros _. cbn [fst snd].
  destruct (dedup_step_returns h s reviews (c :: p) new Hout) as [Hnew Hs1].
  destruct (filter_new_returns hash h s reviews (c :: p) new Hnew)
    as (Hall & _ & _ & Hidx).
  assert ((dedup_step hash h (dedup_step hash h s reviews (c :: p)).2
                      reviews (c :: p)).1 = Ok []) as Hagain.
  { apply dedup_step_all_seen; [done|]. rewrite Hs1.
    change (scraped_review_ids (_save_cache ?x)) with (scraped_review_ids x).
    rewrite Hidx, lookup_insert_eq. cbn [default from_option id].
    set_solver. }
  rewrite Hagain. simpl. split_and!; [done|done|lia].
Qed.

End ScrapeMore.

Section ResetFacts.
Variable hash : str → Z.

(** X8.  [reset_cache_for_location] returns [True] exactly for a place in
    the index; for another place it changes nothing and does not write the
    file.  Afterwards the count of the place is 0, other places are
    untouched, the file is rewritten as far as the write succeeds, and a
    call of [_filter_new_reviews] for the place that returns gives every
    first occurrence of an id among the reviews. *)
Theorem reset_cache_for_location_forgets (h : Heap) (s : Scraper)
    (reviews : list loc) (place_id other : str) :
  let out := reset_cache_for_location s place_id in
  (out.1 = true ↔ is_Some (scraped_review_ids s !! place_id))
  ∧ (out.1 = false → out.2 = s)
  ∧ get_cached_review_count out.2 place_id = 0%nat
  ∧ (other ≠ place_id →
     scraped_review_ids out.2 !! other = scraped_review_ids s !! other)
  ∧ (out.1 = true →
     match fs_write (fs s) with
     | WriteOk => persisted out.2
     | OpenRaises => fs_file (fs out.2) = fs_file (fs s)
     | DumpRaises => fs_file (fs out.2) = Corrupt
     end)
  ∧ (∀ new,
       (_filter_new_reviews hash h out.2 reviews place_id).1 = Ok new →
       ∀ l, l ∈ new ↔ first_new (fingerprint hash h) ∅ reviews l).
Proof.
  intros out. subst out. unfold reset_cache_for_location, get_cached_review_count.
  assert (∀ s', scraped_review_ids s' !! place_id = None →
            ∀ new, (_filter_new_reviews hash h s' reviews place_id).1 = Ok new →
            ∀ l, l ∈ new ↔ first_new (fingerprint hash h) ∅ reviews l) as Hnew.
  { intros s' Hnone new Hout.
    destruct (filter_new_returns hash h s' reviews place_id new Hout)
      as (_ & _ & Hmem & _).
    by rewrite Hnone in Hmem. }
  destruct (scraped_review_ids s !! place_id) as [ids|] eqn:Hp.
  - cbn [fst snd _save_cache scraped_review_ids fs fs_file fs_write].
    rewrite lookup_delete_eq. split_and!.
    + split; [by eexists|done].
    + done.
    + done.
    + intros Hne. by rewrite lookup_delete_ne.
    + intros _. unfold persisted. simpl. by destruct (fs_write (fs s)).
    + apply Hnew. simpl. by rewrite lookup_delete_eq.
  - cbn [fst snd]. rewrite Hp. split_and!.
    + split; [done|]. by intros [? ?].
    + done.
    + done.
    + done.
    + done.
    + by apply Hnew.
Qed.

(** X9.  After [reset_all_cache] every place has count 0 and a call of
    [_filter_new_reviews] that returns gives every first occurrence of an
    id among the reviews; a new scraper loads the empty index, except when
    [open] raises on the write: then it loads what the file held before
    the reset. *)
Theorem reset_all_cache_forgets (h : Heap) (s : Scraper) (reviews : list loc)
    (place_id : str) :
  let s' := reset_all_cache s in
  get_cached_review_count s' place_id = 0%nat
  ∧ (∀ new,
       (_filter_new_reviews hash h s' reviews place_id).1 = Ok new →
       ∀ l, l ∈ new ↔ first_new (fingerprint hash h) ∅ reviews l)
  ∧ match fs_write (fs s) with
    | WriteOk => _load_cache (fs s') = ∅
    | OpenRaises => _load_cache (fs s') = _load_cache (fs s)
    | DumpRaises => _load_cache (fs s') = ∅
    end.
Proof.
  intros s'. subst s'. unfold reset_all_cache, get_cached_review_count.
  cbn [_save_cache scraped_review_ids]. rewrite lookup_empty. split_and!.
  - done.
  - intros new Hout.
    destruct (filter_new_returns hash h _ reviews place_id new Hout)
      as (_ & _ & Hmem & _).
    cbn [_save_cache scraped_review_ids] in Hmem.
    by rewrite lookup_empty in Hmem.
  - unfold _load_cache. simpl. by destruct (fs_write (fs s)).
Qed.

End ResetFacts.


(** ** More on the analyzer *)

Section AnalyzerMore.
Variable lower : str → str.
Variable json_loads : str → result json.

(** X10.  When the true division of [rating - 3] by 2 does not overflow,
    [analyze_with_github] returns a result and raises nothing: the result
    of the remote path with source [github_models] when that path
    succeeds, otherwise the fallback's with source [rule_based_fallback]
    and a note that carries the message of the exception, which without a
    client is the one about the missing token. *)
Theorem analyze_with_github_returns_in_range (client : Client)
    (clk fclk : Clock) (review : str) (rating : Z) (review_id : option str)
    (reviewer_name review_at : option str) (is_google : bool) :
  int_truediv (rating - 3) 2 ≠ None →
  ∃ r,
    analyze_with_github lower json_loads client clk fclk review rating
                        review_id reviewer_name review_at is_google = Ok r
    ∧ match remote_analysis json_loads client clk review rating review_id
                            reviewer_name review_at is_google with
      | Ok r' => r = r' ∧ sr_source r = u "github_models"
      | Raise e =>
          fallback_analysis lower fclk review rating review_id (exn_str e)
          = Ok r
          ∧ sr_source r = u "rule_based_fallback"
          ∧ sr_note r = Some (fallback_note (exn_str e))
          ∧ (client = None → e = not_initialized)
      end.
Proof.
  intros Hq. unfold analyze_with_github.
  destruct (remote_analysis json_loads client clk review rating review_id
              reviewer_name review_at is_google) as [r|e] eqn:Hremote; simpl.
  - exists r. split_and!; [done|done|].
    unfold remote_analysis in Hremote.
    destruct client as [complete|]; [|done].
    destruct (complete _); [done|].
    destruct (json_loads _) as [doc|]; simpl in Hremote; [|done].
    repeat (match type of Hremote with
            | context [getitem doc ?k] =>
                destruct (getitem doc k); simpl in Hremote; [|done]
            end).
    by injection Hremote as <-.
  - unfold fallback_analysis, final_score.
    destruct (int_truediv (rating - 3) 2) as [q|]; [|done]. simpl.
    eexists. split_and!; try done.
    intros ->. by injection Hremote as <-.
Qed.

Lemma extract_themes_length text :
  (1 ≤ length (extract_themes text) ≤ 6)%nat.
Proof.
  unfold extract_themes.
  match goal with |- context [List.filter ?f THEMES] =>
    pose proof (List.filter_length_le f THEMES) as Hle;
    destruct (List.filter f THEMES) as [|x l]
  end; change (length THEMES) with 6%nat in Hle; simpl in *;
    rewrite ?length_map; lia.
Qed.

Lemma suggestions_length sentiment themes :
  (2 ≤ length (suggestions sentiment themes) ≤ 4)%nat
  ∧ (sentiment ≠ Negative → length (suggestions sentiment themes) = 3%nat).
Proof.
  destruct sentiment; simpl; [split; [lia|done]| |split; [lia|done]].
  destruct (str_in _ themes), (str_in _ themes); simpl; split; lia || done.
Qed.

(** X11.  A result of [fallback_analysis] has between 1 and 5 themes and
    between 2 and 4 suggestions, and exactly 3 suggestions unless the
    sentiment is Negative. *)
Theorem fallback_themes_and_suggestions (clk : Clock) (review : str)
    (rating : Z) (review_id : option str) (error_msg : str) :
  match fallback_analysis lower clk review rating review_id error_msg with
  | Ok r =>
      ∃ themes suggested,
        sr_themes r = JList themes
        ∧ (1 ≤ length themes ≤ 5)%nat
        ∧ sr_ai_suggestions r = JList suggested
        ∧ (2 ≤ length suggested ≤ 4)%nat
        ∧ (sr_sentiment r ≠ JStr (u "Negative") →
           length suggested = 3%nat)
  | Raise _ => True
  end.
Proof.
  unfold fallback_analysis.
  destruct (final_score (lower review) rating) as [final|]; simpl; [|done].
  eexists _, _. split_and!; try reflexivity; unfold json_strs;
    rewrite ?length_map, ?length_take.
  - pose proof (extract_themes_length (lower review)). lia.
  - pose proof (extract_themes_length (lower review)). lia.
  - pose proof (suggestions_length (classify final)
                  (extract_themes (lower review))) as [? _]. lia.
  - pose proof (suggestions_length (classify final)
                  (extract_themes (lower review))) as [? _]. lia.
  - intros Hn.
    pose proof (suggestions_length (classify final)
                  (extract_themes (lower review))) as [? Hs].
    rewrite Hs; [lia|]. intros Hc. apply Hn. by rewrite Hc.
Qed.

Lemma sum_int_points k text ws :
  sum_int k text ws = k * Z.of_nat (length (hits text ws)).
Proof.
  unfold sum_int.
  assert (∀ l acc, fold_left Z.add (map (λ _ : str, k) l) acc
                   = acc + k * Z.of_nat (length l)) as Hfold.
  { induction l as [|x l IH]; intros acc; simpl length; simpl fold_left;
      [lia|]. rewrite IH. lia. }
  rewrite Hfold. lia.
Qed.

Lemma sum_weak_count text ws :
  sum_weak text ws = weak_sum (length (hits text ws)).
Proof.
  unfold sum_weak, weak_sum. f_equal.
  induction (hits text ws) as [|x l IH]; simpl; [done|]. by rewrite IH.
Qed.

Lemma lexicon_score_counts text strong medium weak :
  lexicon_score text strong medium weak
  = score_of (points text strong medium) (length (hits text weak)).
Proof.
  unfold lexicon_score, score_of, points.
  rewrite !sum_int_points, sum_weak_count. do 4 f_equal. lia.
Qed.

Lemma hits_length text ws : (length (hits text ws) ≤ length ws)%nat.
Proof. apply List.filter_length_le. Qed.

Lemma score_of_range_check :
  forallb (λ k, forallb (λ n, in_zero_one (score_of k n)) (seq 0 5))
          (map Z.of_nat (seq 0 26)) = true.
Proof. vm_compute. reflexivity. Qed.

Lemma score_of_range k n :
  0 <= k <= 25 → (n ≤ 4)%nat → in_zero_one (score_of k n) = true.
Proof.
  intros Hk Hn. pose proof score_of_range_check as Hall.
  rewrite forallb_forall in Hall.
  assert (In k (map Z.of_nat (seq 0 26))) as Hin.
  { rewrite in_map_iff. exists (Z.to_nat k). split; [lia|]. apply in_seq. lia. }
  apply Hall in Hin. rewrite forallb_forall in Hin. apply Hin.
  apply in_seq. lia.
Qed.

(** X12.  For every text, the positive and the negative keyword score of
    the fallback, as the floating-point arithmetic computes them, lie in
    [0.0, 1.0]. *)
Theorem lexicon_scores_in_range (text : str) :
  in_zero_one (pos_score text) = true ∧ in_zero_one (neg_score text) = true.
Proof.
  unfold pos_score, neg_score. rewrite !lexicon_score_counts. unfold points.
  pose proof (hits_length text POSITIVE_strong) as H1.
  pose proof (hits_length text POSITIVE_medium) as H2.
  pose proof (hits_length text POSITIVE_weak) as H3.
  pose proof (hits_length text NEGATIVE_strong) as H4.
  pose proof (hits_length text NEGATIVE_medium) as H5.
  pose proof (hits_length text NEGATIVE_weak) as H6.
  change (length POSITIVE_strong) with 7%nat in H1.
  change (length POSITIVE_medium) with 11%nat in H2.
  change (length POSITIVE_weak) with 4%nat in H3.
  change (length NEGATIVE_strong) with 5%nat in H4.
  change (length NEGATIVE_medium) with 10%nat in H5.
  change (length NEGATIVE_weak) with 3%nat in H6.
  split; apply score_of_range; lia.
Qed.

End AnalyzerMore.

Section ScoreSign.

Lemma digits2_pos_lower (m : positive) : 2 ^ (Zpos (digits2_pos m) - 1) <= Zpos m.
Proof.
  induction m as [m IH|m IH|]; simpl digits2_pos.
  - rewrite Pos2Z.inj_succ.
    replace (Z.succ (Zpos (digits2_pos m)) - 1)
      with (Z.succ (Zpos (digits2_pos m) - 1)) by lia.
    rewrite Z.pow_succ_r by lia. lia.
  - rewrite Pos2Z.inj_succ.
    replace (Z.succ (Zpos (digits2_pos m)) - 1)
      with (Z.succ (Zpos (digits2_pos m) - 1)) by lia.
    rewrite Z.pow_succ_r by lia. lia.
  - reflexivity.
Qed.

Lemma half_even_div_ge n d c :
  0 < d → c * d <= n → c <= half_even_div n d.
Proof.
  intros Hd Hn. unfold half_even_div.
  assert (c <= n / d) by (apply Z.div_le_lower_bound; lia).
  destruct (2 * (n mod d) ?= d); [destruct (Z.even (n / d))|..]; lia.
Qed.

(** A valid float above 0.2 in magnitude and below 1 has at least 20
    hundredths. *)
Lemma large_mantissa s m e :
  valid_binary (S754_finite s m e) = true →
  (-55 < e ∨ e = -55 ∧ 7205759403792794 < Zpos m) →
  e < 0 →
  2 ^ (- e) <= 5 * Zpos m.
Proof.
  intros Hv He Hneg. destruct He as [He|[-> Hm]].
  - unfold valid_binary, bounded, canonical_mantissa, fexp, emin in Hv.
    apply andb_prop in Hv as [Hc _]. apply Z.eqb_eq in Hc.
    change prec with 53 in Hc. change emax with 1024 in Hc.
    assert (Zpos (digits2_pos m) = 53) as Hd by lia.
    pose proof (digits2_pos_lower m) as Hlow. rewrite Hd in Hlow.
    change (2 ^ (53 - 1)) with 4503599627370496 in Hlow.
    assert (2 ^ (- e) <= 2 ^ 54) as Hp by (apply Z.pow_le_mono_r; lia).
    change (2 ^ 54) with 18014398509481984 in Hp. lia.
  - change (2 ^ (- -55)) with 36028797018963968. lia.
Qed.

Lemma centi_large s m e :
  valid_binary (S754_finite s m e) = true →
  (-55 < e ∨ e = -55 ∧ 7205759403792794 < Zpos m) →
  e < 0 → Zpos m < 2 ^ (- e) →
  20 <= centi m e <= 100.
Proof.
  intros Hv He Hneg Hm.
  pose proof (large_mantissa s m e Hv He Hneg) as Hl.
  pose proof (centi_small m e Hneg Hm) as Hs. split; [|lia].
  unfold centi. destruct (0 <=? e) eqn:E; [apply Z.leb_le in E; lia|].
  apply half_even_div_ge; [apply Z.pow_pos_nonneg; lia|lia].
Qed.

Lemma of_centi_sign_check :
  forallb (λ k, (0.2 <=? of_centi false k)%float
                && (of_centi true k <=? -0.2)%float)
          (map Z.of_nat (seq 20 81)) = true.
Proof. vm_compute. reflexivity. Qed.

Lemma of_centi_sign k :
  20 <= k <= 100 →
  (0.2 <=? of_centi false k)%float = true
  ∧ (of_centi true k <=? -0.2)%float = true.
Proof.
  intros Hk. pose proof of_centi_sign_check as Hall.
  rewrite forallb_forall in Hall.
  assert (In k (map Z.of_nat (seq 20 81))) as Hin.
  { rewrite in_map_iff. exists (Z.to_nat k). split; [lia|]. apply in_seq. lia. }
  apply Hall in Hin. by apply andb_prop in Hin.
Qed.

Lemma above_fifth m e :
  SFltb (Prim2SF 0.2) (S754_finite false m e) = true →
  -55 < e ∨ e = -55 ∧ 7205759403792794 < Zpos m.
Proof.
  change (Prim2SF 0.2) with (S754_finite false 7205759403792794 (-55)).
  unfold SFltb, SFcompare.
  destruct (Z.compare_spec (-55) e) as [<-|?|?]; intros Hc; [|by left|done].
  right. split; [done|].
  by destruct (Pos.compare_cont Eq 7205759403792794 m) eqn:E.
Qed.

Lemma below_minus_fifth m e :
  SFltb (S754_finite true m e) (Prim2SF (-0.2)) = true →
  -55 < e ∨ e = -55 ∧ 7205759403792794 < Zpos m.
Proof.
  change (Prim2SF (-0.2)) with (S754_finite true 7205759403792794 (-55)).
  unfold SFltb, SFcompare.
  destruct (Z.compare_spec e (-55)) as [->|?|?]; intros Hc; [|done|left; lia].
  right. split; [done|].
  destruct (Pos.compare_cont Eq m 7205759403792794) eqn:E; try done.
  apply Pos.compare_gt_iff in E. exact E.
Qed.

Lemma clamp_round2_positive (x : float) :
  (0.2 <? x)%float = true →
  (0.2 <=? round2 (py_max (-1) (py_min 1 x)))%float = true.
Proof.
  intros Hx. unfold py_min, py_max.
  destruct (x <? 1)%float eqn:Hhi; [|vm_compute; reflexivity].
  pose proof (Prim2SF_valid x) as Hv.
  rewrite ltb_spec in Hx, Hhi.
  assert ((-1 <? x)%float = true) as ->.
  { rewrite ltb_spec.
    change (Prim2SF 0.2) with (S754_finite false 7205759403792794 (-55)) in Hx.
    change (Prim2SF (-1)) with (S754_finite true 4503599627370496 (-52)).
    destruct (Prim2SF x) as [s|s| |s m e]; try done; by destruct s. }
  unfold round2. destruct (Prim2SF x) as [s|s| |s m e] eqn:Ex.
  - by destruct s.
  - by destruct s.
  - done.
  - destruct s; [done|].
    pose proof (above_fifth m e Hx) as He.
    destruct (small_mantissa false m e Hv (ltb_one_finite m e Hhi)) as [Hneg Hm].
    apply (of_centi_sign (centi m e)).
    by apply (centi_large false).
Qed.

Lemma clamp_round2_negative (x : float) :
  (x <? -0.2)%float = true →
  (round2 (py_max (-1) (py_min 1 x)) <=? -0.2)%float = true.
Proof.
  intros Hx. unfold py_min, py_max.
  pose proof (Prim2SF_valid x) as Hv.
  assert ((x <? 1)%float = true) as ->.
  { rewrite ltb_spec in Hx |- *.
    change (Prim2SF (-0.2)) with (S754_finite true 7205759403792794 (-55)) in Hx.
    change (Prim2SF 1) with (S754_finite false 4503599627370496 (-52)).
    destruct (Prim2SF x) as [s|s| |s m e]; try done; by destruct s. }
  destruct (-1 <? x)%float eqn:Hlo; [|vm_compute; reflexivity].
  rewrite ltb_spec in Hx, Hlo.
  unfold round2. destruct (Prim2SF x) as [s|s| |s m e] eqn:Ex.
  - by destruct s.
  - by destruct s.
  - done.
  - destruct s; [|done].
    pose proof (below_minus_fifth m e Hx) as He.
    destruct (small_mantissa true m e Hv (ltb_minus_one_finite m e Hlo))
      as [Hneg Hm].
    apply (of_centi_sign (centi m e)).
    by apply (centi_large true).
Qed.

Lemma classify_positive final :
  classify final = Positive → (0.2 <? final)%float = true.
Proof.
  unfold classify. destruct (0.2 <? final)%float; [done|].
  by destruct (final <? -0.2)%float.
Qed.

Lemma classify_negative final :
  classify final = Negative → (final <? -0.2)%float = true.
Proof.
  unfold classify. destruct (0.2 <? final)%float; [done|].
  by destruct (final <? -0.2)%float.
Qed.

(** X13.  In a result of [fallback_analysis] the label and the rounded
    score agree: a Positive result has a score of at least 0.2, a Negative
    one a score of at most -0.2. *)
Theorem fallback_label_matches_score (lower : str → str) (clk : Clock)
    (review : str) (rating : Z) (review_id : option str) (error_msg : str) :
  match fallback_analysis lower clk review rating review_id error_msg with
  | Ok r =>
      ∃ score,
        sr_sentiment_score r = JFloat score
        ∧ (sr_sentiment r = JStr (u "Positive") → (0.2 <=? score)%float = true)
        ∧ (sr_sentiment r = JStr (u "Negative") → (score <=? -0.2)%float = true)
  | Raise _ => True
  end.
Proof.
  unfold fallback_analysis.
  destruct (final_score (lower review) rating) as [final|]; simpl; [|done].
  eexists. split; [reflexivity|]. split.
  - intros Hs. apply clamp_round2_positive, classify_positive.
    by destruct (classify final).
  - intros Hs. apply clamp_round2_negative, classify_negative.
    by destruct (classify final).
Qed.

End ScoreSign.

Section RemoteFacts.
Context {DB : Type} `{Database DB}.
Variable json_loads : str → result json.

(** X14.  A result of the remote path carries the five values of the
    model's JSON answer as they are, without a check of their type or
    range, and has the key [reviewer_name]; [save_analysis] raises nothing
    on it. *)
Theorem remote_result_unchecked_and_savable (db : DB) (client : Client)
    (clk : Clock) (review : str) (rating : Z) (review_id : option str)
    (reviewer_name review_at : option str) (is_google : bool)
    (r : SentimentResult) :
  remote_analysis json_loads client clk review rating review_id reviewer_name
                  review_at is_google = Ok r →
  (∃ complete raw doc,
      client = Some complete
      ∧ complete (build_prompt review rating) = Content raw
      ∧ json_loads (strip_fences (strip raw)) = Ok doc
      ∧ getitem doc (u "sentiment") = Ok (sr_sentiment r)
      ∧ getitem doc (u "sentiment_score") = Ok (sr_sentiment_score r)
      ∧ getitem doc (u "themes") = Ok (sr_themes r)
      ∧ getitem doc (u "analysis_reasons") = Ok (sr_analysis_reasons r)
      ∧ getitem doc (u "ai_suggestions") = Ok (sr_ai_suggestions r))
  ∧ sr_reviewer_name r = Some reviewer_name
  ∧ ∃ saved, save_analysis db r = Ok saved.
Proof.
  unfold remote_analysis. intros Hr.
  destruct client as [complete|]; [|done].
  destruct (complete (build_prompt review rating)) as [e|raw] eqn:Hc; [done|].
  destruct (json_loads (strip_fences (strip raw))) as [doc|e] eqn:Hj;
    simpl in Hr; [|done].
  destruct (getitem doc (u "sentiment")) as [v1|] eqn:H1; simpl in Hr; [|done].
  destruct (getitem doc (u "sentiment_score")) as [v2|] eqn:H2; simpl in Hr;
    [|done].
  destruct (getitem doc (u "themes")) as [v3|] eqn:H3; simpl in Hr; [|done].
  destruct (getitem doc (u "analysis_reasons")) as [v4|] eqn:H4; simpl in Hr;
    [|done].
  destruct (getitem doc (u "ai_suggestions")) as [v5|] eqn:H5; simpl in Hr;
    [|done].
  injection Hr as <-. split_and!.
  - exists complete, raw, doc. by split_and!.
  - done.
  - unfold save_analysis. simpl.
    destruct (db_connect db); [|by eexists].
    destruct (db_upsert db _); by eexists.
Qed.

End RemoteFacts.

(** ** More on the smart batch endpoint *)

Section BatchMore.
Context {DB : Type} `{Database DB}.
Variable engine : nat → AnalysisRequest → result SentimentResult.

Lemma save_analysis_raises (db : DB) r e :
  save_analysis db r = Raise e →
  e = missing_reviewer_name ∧ db_connect db = true ∧ sr_reviewer_name r = None.
Proof.
  unfold save_analysis. destruct (db_connect db); [|done].
  destruct (sr_reviewer_name r); [|by intros [= <-]].
  by destruct (db_upsert db r).
Qed.


Lemma hits_from_elem (db : DB) force reviews idx id row :
  (id, row) ∈ hits_from db force idx reviews →
  ∃ i rev, reviews !! i = Some rev
           ∧ id = review_id_of (idx + i) rev
           ∧ cache_hit db force (idx + i) rev = Some row.
Proof.
  revert idx. induction reviews as [|rev0 rest IH]; intros idx Hin; simpl in *.
  - by apply elem_of_nil in Hin.
  - destruct (cache_hit db force idx rev0) eqn:Hn.
    + apply elem_of_cons in Hin as [[= -> ->]|Hin].
      * exists 0%nat, rev0. by rewrite Nat.add_0_r.
      * destruct (IH _ Hin) as (i & rev & Hi & -> & Hn').
        exists (S i), rev. by replace (idx + S i)%nat with (S idx + i)%nat by lia.
    + destruct (IH _ Hin) as (i & rev & Hi & -> & Hn').
      exists (S i), rev. by replace (idx + S i)%nat with (S idx + i)%nat by lia.
Qed.


Lemma hits_todo_partition (db : DB) force reviews idx :
  (length (hits_from db force idx reviews)
   + length (todo_from db force idx reviews)
   + length (without_text reviews) = length reviews)%nat.
Proof.
  unfold without_text.
  revert idx. induction reviews as [|rev rest IH]; intros idx; simpl; [done|].
  specialize (IH (S idx)). unfold needs_analysis, cache_hit.
  destruct (review_text_of rev) as [|c t] eqn:Et; simpl.
  - lia.
  - destruct (negb force && is_analyzed db (review_id_of idx rev) (c :: t));
      [destruct (get_analysis db (review_id_of idx rev))|]; simpl; lia.
Qed.

(** The two loops of the second phase, with the source of what they add. *)
Lemma store_completed_source todo idx (st st' : Progress (DB := DB)) oe :
  store_completed idx (gather engine idx todo) st = (st', oe) →
  (∀ en, en ∈ g_results st' →
     en ∈ g_results st
     ∨ ∃ i rq r saved, todo !! i = Some rq ∧ engine (idx + i) rq = Ok r
                       ∧ en = Analyzed r saved)
  ∧ (∀ er, er ∈ g_errors st' →
       er ∈ g_errors st
       ∨ ∃ i rq e, todo !! i = Some rq ∧ engine (idx + i) rq = Raise e
                   ∧ er = ErrIndex (idx + i) (exn_str e))
  ∧ (∀ e, oe = Some e → e = missing_reviewer_name).
Proof.
  revert idx st. induction todo as [|rq rest IH]; intros idx st Hrun;
    simpl in Hrun.
  - injection Hrun as <- <-. by split_and!; [left|left|].
  - destruct (engine idx rq) as [r|e] eqn:He.
    + destruct (save_analysis (g_db st) r) as [saved|e] eqn:Hs.
      * destruct (IH _ _ Hrun) as (Hr & Her & Hoe). simpl in *. split_and!.
        -- intros en Hen. destruct (Hr en Hen) as [Hin|(i & rq' & r' & sv & ? & ? & ?)].
           ++ apply elem_of_app in Hin as [?|Hsing%list_elem_of_singleton]; [by left|subst].
              right. exists 0%nat, rq, r, saved.1. by rewrite Nat.add_0_r.
           ++ right. exists (S i), rq', r', sv.
              by replace (idx + S i)%nat with (S idx + i)%nat by lia.
        -- intros er Hin. destruct (Her er Hin) as [?|(i & rq' & e' & ? & ? & ?)];
             [by left|].
           right. exists (S i), rq', e'.
           by replace (idx + S i)%nat with (S idx + i)%nat by lia.
        -- done.
      * injection Hrun as <- <-. split_and!; [by left|by left|].
        intros e' [= <-]. by apply save_analysis_raises in Hs as [-> _].
    + destruct (IH _ _ Hrun) as (Hr & Her & Hoe). simpl in *. split_and!.
      * intros en Hen. destruct (Hr en Hen) as [?|(i & rq' & r' & sv & ? & ? & ?)];
          [by left|].
        right. exists (S i), rq', r', sv.
        by replace (idx + S i)%nat with (S idx + i)%nat by lia.
      * intros er Hin. destruct (Her er Hin) as [Hin'|(i & rq' & e' & ? & ? & ?)].
        -- apply elem_of_app in Hin' as [?|Hsing%list_elem_of_singleton]; [by left|subst].
           right. exists 0%nat, rq, e. by rewrite Nat.add_0_r.
        -- right. exists (S i), rq', e'.
           by replace (idx + S i)%nat with (S idx + i)%nat by lia.
      * done.
Qed.

Lemma analyze_each_source todo idx (st : Progress (DB := DB)) :
  let st' := analyze_each engine idx todo st in
  (∀ en, en ∈ g_results st' →
     en ∈ g_results st
     ∨ ∃ i rq r saved, todo !! i = Some rq ∧ engine (idx + i) rq = Ok r
                       ∧ en = Analyzed r saved)
  ∧ (∀ er, er ∈ g_errors st' →
       er ∈ g_errors st
       ∨ ∃ i rq, todo !! i = Some rq
                 ∧ ((∃ e, engine (idx + i) rq = Raise e
                          ∧ er = ErrId (ar_id rq) (exn_str e))
                    ∨ (∃ r, engine (idx + i) rq = Ok r
                            ∧ er = ErrId (ar_id rq)
                                     (exn_str missing_reviewer_name)))).
Proof.
  revert idx st. induction todo as [|rq rest IH]; intros idx st; simpl.
  - by split; [left|left].
  - match goal with |- context [analyze_each engine (S idx) rest ?st1] =>
      destruct (IH (S idx) st1) as (Hr & Her); set (s1 := st1) in * end.
    assert (∀ i, (idx + S i)%nat = (S idx + i)%nat) as Hidx by lia.
    split.
    + intros en Hen. destruct (Hr en Hen) as [Hin|(i & rq' & r' & sv & ? & ? & ?)].
      * subst s1. destruct (engine idx rq) as [r|e] eqn:He; simpl in Hin.
        -- destruct (save_analysis (g_db st) r) as [saved|e]; simpl in Hin;
             [|by left].
           apply elem_of_app in Hin as [?|Hsing%list_elem_of_singleton]; [by left|subst].
           right. exists 0%nat, rq, r, saved.1. by rewrite Nat.add_0_r.
        -- by left.
      * right. exists (S i), rq', r', sv. by rewrite Hidx.
    + intros er Hin. destruct (Her er Hin) as [Hin'|(i & rq' & ? & Hcase)].
      * subst s1. destruct (engine idx rq) as [r|e] eqn:He; simpl in Hin'.
        -- destruct (save_analysis (g_db st) r) as [saved|e] eqn:Hs;
             simpl in Hin'; [by left|].
           apply elem_of_app in Hin' as [?|Hsing%list_elem_of_singleton]; [by left|subst].
           right. exists 0%nat, rq. rewrite Nat.add_0_r. split; [done|]. right.
           exists r. by apply save_analysis_raises in Hs as [-> _].
        -- apply elem_of_app in Hin' as [?|Hsing%list_elem_of_singleton]; [by left|subst].
           right. exists 0%nat, rq. rewrite Nat.add_0_r. split; [done|]. left.
           by exists e.
      * right. exists (S i), rq'. by rewrite Hidx.
Qed.

End BatchMore.

Section BatchRuns.
Context {DB : Type} `{Database DB}.
Variable engine : nat → AnalysisRequest → result SentimentResult.

(** A run on a non-empty batch, in terms of the two phases. *)
Lemma smart_batch_run clk (db : DB) data rev0 rest :
  default [] (rq_reviews data) = rev0 :: rest →
  let reviews := rev0 :: rest in
  let force := default false (rq_force_reanalyze data) in
  let todo := todo_from db force 0 reviews in
  let st0 := after_first_loop db force reviews in
  let finished :=
    if default true (rq_parallel_processing data)
    then store_completed 0 (gather engine 0 todo) st0
    else (analyze_each engine 0 todo st0, None) in
  let run := smart_batch_analyze engine clk db data in
  run_db run = g_db finished.1
  ∧ run_engine_calls run = todo
  ∧ match finished.2 with
    | Some e => run_response run = Failure (exn_str e)
    | None =>
        ∃ o, run_response run = Success o
             ∧ results o = g_results finished.1
             ∧ default [] (errors o) = g_errors finished.1
             ∧ failed o = length (g_errors finished.1)
             ∧ newly_analyzed o = length todo
             ∧ from_cache o = length (hits_from db force 0 reviews)
             ∧ processed o = length (g_results finished.1)
             ∧ total_reviews o = length reviews
             ∧ skipped o
               = or_none (already_analyzed ∘ fst <$> hits_from db force 0 reviews)
    end.
Proof.
  intros Hrev reviews force todo st0 finished run.
  subst run. unfold smart_batch_analyze. rewrite Hrev.
  rewrite check_reviews_spec. cbn [p_results p_skipped p_to_analyze].
  rewrite !app_nil_l. fold reviews force todo.
  change {| g_db := db;
            g_results := FromCache ∘ snd <$> hits_from db force 0 reviews;
            g_errors := [] |} with st0.
  fold finished. destruct finished as [st [e|]]; simpl; [done|].
  split_and!; try done. eexists. split; [done|]. simpl.
  rewrite !length_fmap. split_and!; try done. by destruct (g_errors st).
Qed.

Lemma store_completed_failure todo idx (st st' : Progress (DB := DB)) e :
  store_completed idx (gather engine idx todo) st = (st', Some e) →
  ∃ i rq r, todo !! i = Some rq ∧ engine (idx + i) rq = Ok r
            ∧ sr_reviewer_name r = None ∧ db_connect (g_db st') = true.
Proof.
  revert idx st. induction todo as [|rq rest IH]; intros idx st Hrun;
    simpl in Hrun; [done|].
  assert (∀ i, (idx + S i)%nat = (S idx + i)%nat) as Hidx by lia.
  destruct (engine idx rq) as [r|e0] eqn:He.
  - destruct (save_analysis (g_db st) r) as [saved|e1] eqn:Hs.
    + destruct (IH _ _ Hrun) as (i & rq' & r' & ? & ? & ? & ?).
      exists (S i), rq', r'. by rewrite Hidx.
    + injection Hrun as <- <-.
      apply save_analysis_raises in Hs as (_ & ? & ?).
      exists 0%nat, rq, r. by rewrite Nat.add_0_r.
  - destruct (IH _ _ Hrun) as (i & rq' & r' & ? & ? & ? & ?).
    exists (S i), rq', r'. by rewrite Hidx.
Qed.

(** X15.  In a successful response of [smart_batch_analyze] every entry of
    [results] is a stored row of a cache hit or the engine's answer to one
    of the requests, every entry of [errors] reports the exception of the
    engine or of the save for one of the requests, and the engine is
    called on exactly the requests of the reviews that need analysis. *)
Theorem results_and_errors_source clk (db : DB) data o :
  run_response (smart_batch_analyze engine clk db data) = Success o →
  let reviews := default [] (rq_reviews data) in
  let force := default false (rq_force_reanalyze data) in
  (∀ en, en ∈ results o → entry_source engine db force reviews en)
  ∧ (∀ er, er ∈ default [] (errors o) →
       error_source engine db force reviews er)
  ∧ run_engine_calls (smart_batch_analyze engine clk db data)
    = todo_from db force 0 reviews.
Proof.
  intros Ho reviews force.
  destruct reviews as [|rev0 rest] eqn:Hrev.
  { unfold smart_batch_analyze in Ho. subst reviews. by rewrite Hrev in Ho. }
  destruct (smart_batch_run clk db data rev0 rest Hrev) as (_ & Hcalls & Hresp).
  fold force in Hcalls, Hresp.
  set (todo := todo_from db force 0 (rev0 :: rest)) in *.
  assert (∀ en, en ∈ g_results (after_first_loop db force (rev0 :: rest)) →
            entry_source engine db force (rev0 :: rest) en) as Hhits.
  { intros en (x & -> & Hx)%list_elem_of_fmap. destruct x as [id row].
    apply hits_from_elem in Hx as (i & rev & ? & _ & ?). simpl.
    by exists i, rev. }
  destruct (default true (rq_parallel_processing data)).
  - destruct (store_completed 0 (gather engine 0 todo) _) as [st oe] eqn:Hrun.
    simpl in Hresp. destruct oe as [e|]; [by rewrite Hresp in Ho|].
    destruct Hresp as (o' & Ho' & Hr & He & _). rewrite Ho in Ho'.
    injection Ho' as <-. rewrite Hr, He.
    destruct (store_completed_source engine _ _ _ _ _ Hrun) as (Hsr & Hse & _).
    split_and!; [| |done].
    + intros en Hen. destruct (Hsr en Hen) as [?|(i & rq & r & sv & ? & ? & ->)];
        [by apply Hhits|]. simpl. by exists i, rq.
    + intros er Her. destruct (Hse er Her) as [Hin|(i & rq & e & ? & ? & ->)];
        [by apply elem_of_nil in Hin|]. simpl. by exists rq, e.
  - simpl in Hresp. destruct Hresp as (o' & Ho' & Hr & He & _).
    rewrite Ho in Ho'. injection Ho' as <-. rewrite Hr, He.
    destruct (analyze_each_source engine todo 0
                (after_first_loop db force (rev0 :: rest))) as (Hsr & Hse).
    split_and!; [| |done].
    + intros en Hen. destruct (Hsr en Hen) as [?|(i & rq & r & sv & ? & ? & ->)];
        [by apply Hhits|]. simpl. by exists i, rq.
    + intros er Her.
      destruct (Hse er Her) as [Hin|(i & rq & ? & [(e & ? & ->)|(r & ? & ->)])];
        [by apply elem_of_nil in Hin| |]; simpl; exists i, rq;
        (split_and!; [done|done|]); [left|right]; eauto.
Qed.

(** The failures of the endpoint once the [print] has returned. *)
Lemma failure_after_print clk (db : DB) data msg :
  run_response (smart_batch_analyze engine clk db data) = Failure msg →
  (default [] (rq_reviews data) = [] ∧ msg = u "reviews array required")
  ∨ (default true (rq_parallel_processing data) = true
     ∧ msg = exn_str missing_reviewer_name
     ∧ ∃ i rq r,
         todo_from db (default false (rq_force_reanalyze data)) 0
                   (default [] (rq_reviews data)) !! i = Some rq
         ∧ engine i rq = Ok r
         ∧ sr_reviewer_name r = None).
Proof.
  intros Hf. destruct (default [] (rq_reviews data)) as [|rev0 rest] eqn:Hrev.
  { left. unfold smart_batch_analyze in Hf. rewrite Hrev in Hf.
    by injection Hf as <-. }
  right. destruct (smart_batch_run clk db data rev0 rest Hrev) as (_ & _ & Hresp).
  destruct (default true (rq_parallel_processing data)).
  - destruct (store_completed 0 _ _) as [st oe] eqn:Hrun. simpl in Hresp.
    destruct oe as [e|]; [|destruct Hresp as (o & Ho & _); by rewrite Ho in Hf].
    rewrite Hresp in Hf. injection Hf as <-.
    destruct (store_completed_source engine _ _ _ _ _ Hrun) as (_ & _ & He).
    rewrite (He e eq_refl).
    destruct (store_completed_failure _ _ _ _ _ Hrun) as (i & rq & r & ? & ? & ? & _).
    split_and!; [done|done|]. by exists i, rq, r.
  - simpl in Hresp. destruct Hresp as (o & Ho & _). by rewrite Ho in Hf.
Qed.

(** The endpoint in full, in terms of the endpoint after the [print]. *)
Lemma smart_batch_endpoint_run print_requests clk (db : DB) data :
  let reviews := default [] (rq_reviews data) in
  let todo := todo_from db (default false (rq_force_reanalyze data)) 0 reviews in
  smart_batch_endpoint engine print_requests clk db data
  = match reviews with
    | [] => smart_batch_analyze engine clk db data
    | _ :: _ =>
        match print_requests todo with
        | Some e =>
            {| run_response := Failure (exn_str e);
               run_db := db;
               run_engine_calls := [] |}
        | None => smart_batch_analyze engine clk db data
        end
    end.
Proof.
  unfold smart_batch_endpoint.
  destruct (default [] (rq_reviews data)) as [|rev0 rest]; [done|].
  rewrite check_reviews_spec. cbn [p_to_analyze]. by rewrite app_nil_l.
Qed.

(** X16.  [smart_batch_analyze] answers with a failure in three cases
    only: the batch has no reviews; the [print] of the requests raised,
    before any analysis and with the database as it was; or the [print]
    returned, the batch is processed in parallel and the engine returned a
    result without the key [reviewer_name], whose save raised
    [KeyError]. *)
Theorem whole_batch_failure print_requests clk (db : DB) data msg :
  run_response (smart_batch_endpoint engine print_requests clk db data)
  = Failure msg →
  let reviews := default [] (rq_reviews data) in
  let todo := todo_from db (default false (rq_force_reanalyze data)) 0 reviews in
  let run := smart_batch_endpoint engine print_requests clk db data in
  (reviews = [] ∧ msg = u "reviews array required")
  ∨ (reviews ≠ []
     ∧ (∃ e, print_requests todo = Some e ∧ msg = exn_str e)
     ∧ run_engine_calls run = []
     ∧ run_db run = db)
  ∨ (reviews ≠ []
     ∧ print_requests todo = None
     ∧ default true (rq_parallel_processing data) = true
     ∧ msg = exn_str missing_reviewer_name
     ∧ ∃ i rq r,
         todo !! i = Some rq
         ∧ engine i rq = Ok r
         ∧ sr_reviewer_name r = None).
Proof.
  intros Hf. cbv zeta. revert Hf. rewrite smart_batch_endpoint_run. cbv zeta.
  destruct (default [] (rq_reviews data)) as [|rev0 rest] eqn:Hrev.
  { intros Hf. destruct (failure_after_print clk db data msg Hf)
      as [[_ ->]|(_ & _ & i & rq & r & Hi & _)]; [by left|].
    rewrite Hrev in Hi. by destruct i. }
  destruct (print_requests _) as [e|] eqn:Hprint.
  - intros [= <-]. right. left. split_and!; [done|by exists e|done|done].
  - intros Hf. right. right.
    destruct (failure_after_print clk db data msg Hf)
      as [[Hnil _]|(Hpar & -> & i & rq & r & Hi & He & Hr)].
    { by rewrite Hrev in Hnil. }
    rewrite Hrev in Hi. split_and!; [done|done|done|done|].
    by exists i, rq, r.
Qed.


(** X18.  In a successful response, [total_reviews] is the sum of
    [from_cache], [newly_analyzed] and the number of reviews without a
    text, which the endpoint drops without a trace. *)
Theorem batch_outcome_partition clk (db : DB) data o :
  run_response (smart_batch_analyze engine clk db data) = Success o →
  (total_reviews o
   = from_cache o + newly_analyzed o
     + length (without_text (default [] (rq_reviews data))))%nat.
Proof.
  intros Ho.
  destruct (smart_batch_success engine clk db data o Ho)
    as (added & errs & _ & _ & _ & Ht & _ & Hn & Hf & _).
  rewrite Ht, Hn, Hf.
  by rewrite hits_todo_partition.
Qed.




End BatchRuns.

Section Unsavable.
Context {DB : Type} `{Database DB}.
Variable engine : nat → AnalysisRequest → result SentimentResult.
Hypothesis engine_results_lack_name :
  ∀ i rq r, engine i rq = Ok r → sr_reviewer_name r = None.

Lemma save_analysis_lacking_name (db : DB) r :
  db_connect db = true → sr_reviewer_name r = None →
  save_analysis db r = Raise missing_reviewer_name.
Proof. unfold save_analysis. by intros -> ->. Qed.




End Unsavable.

Section NoClient.
Context {DB : Type} `{Database DB}.
Variable lower : str → str.
Variable json_loads : str → result json.
Variable clocks : nat → Clock * Clock.
Variable is_google : bool.

Lemma no_client_engine i rq :
  github_engine lower json_loads None clocks is_google i rq
  = fallback_analysis lower (clocks i).2 (ar_review rq) (ar_rating rq)
                      (Some (ar_id rq)) (exn_str not_initialized).
Proof. reflexivity. Qed.

Lemma fallback_lacks_name clk review rating review_id msg r :
  fallback_analysis lower clk review rating review_id msg = Ok r →
  sr_reviewer_name r = None.
Proof.
  unfold fallback_analysis.
  destruct (final_score (lower review) rating); simpl; [|done].
  by intros [= <-].
Qed.


(** X20.  A result of [fallback_analysis] lacks the key [reviewer_name]:
    with a reachable database [save_analysis] raises [KeyError] on it. *)
Theorem fallback_result_cannot_be_saved (db : DB) clk review rating review_id
    msg r :
  db_connect db = true →
  fallback_analysis lower clk review rating review_id msg = Ok r →
  save_analysis db r = Raise missing_reviewer_name.
Proof.
  intros Hup Hr. apply save_analysis_lacking_name; [done|].
  by eapply fallback_lacks_name.
Qed.


End NoClient.

(** ** Runs of the properties above on concrete inputs *)

Section MoreExamples.

(** X1, the witness: four distinct reviews, one of each category. *)
Lemma filter_reviews_counts_categories_witness :
  let c := filter_reviews mixed_reviews [0; 1; 2; 3]%nat in
  (only_images (c_stats c) = 1 ∧ no_text (c_stats c) = 1
   ∧ too_short (c_stats c) = 1 ∧ valid (c_stats c) = 1)%nat
  ∧ only_images (c_stats c)
    = category_count mixed_reviews [0; 1; 2; 3]%nat is_only_images
  ∧ no_text (c_stats c)
    = category_count mixed_reviews [0; 1; 2; 3]%nat is_no_text
  ∧ too_short (c_stats c)
    = category_count mixed_reviews [0; 1; 2; 3]%nat is_too_short
  ∧ valid (c_stats c) = category_count mixed_reviews [0; 1; 2; 3]%nat is_valid
  ∧ c_valid_reviews c
    = List.filter (λ l, is_valid_review (mixed_reviews l)) [0; 1; 2; 3]%nat.
Proof.
  split; [vm_compute; by split_and!|].
  apply (filter_reviews_counts_categories mixed_reviews [0; 1; 2; 3]%nat).
  apply (bool_decide_unpack (NoDup [0; 1; 2; 3]%nat)). vm_compute. exact I.
Defined.

(** X5, the witness: two different texts with the same first 50
    characters. *)
Lemma fingerprint_prefix_collision_witness :
  r_text (long_reviews 0%nat) ≠ r_text (long_reviews 1%nat)
  ∧ (∃ review_id,
        _get_review_id sum_hash (long_reviews 0%nat) = Ok review_id
        ∧ _get_review_id sum_hash (long_reviews 1%nat) = Ok review_id)
  ∧ (scraped_review_ids fresh_scraper !! u "place" = None →
     (_filter_new_reviews sum_hash long_reviews fresh_scraper [0; 1]%nat
                          (u "place")).1 = Ok [0%nat]).
Proof.
  split; [vm_compute; discriminate|].
  eapply (fingerprint_prefix_collision sum_hash long_reviews fresh_scraper
            0%nat 1%nat (u "place")).
  - reflexivity.
  - reflexivity.
  - reflexivity.
  - reflexivity.
  - vm_compute. reflexivity.
Defined.

(** X7, the witness: a place with four reviews, scraped twice. *)
Lemma scrape_twice_witness :
  let run := Dataset [place_of "place" [0; 1; 2; 3]%nat] in
  let s1 := (scrape_location sum_hash mixed_reviews fresh_scraper run true).1.2 in
  match (scrape_location sum_hash mixed_reviews s1 run true).1.1 with
  | ScrapeSuccess d =>
      sd_reviews d = []
      ∧ new_reviews_found (sd_scraping_stats d) = 0%nat
      ∧ duplicates_filtered (sd_scraping_stats d)
        = raw_reviews_fetched (sd_scraping_stats d)
  | ScrapeFailure _ => False
  end.
Proof.
  eapply (scrape_twice sum_hash mixed_reviews fresh_scraper
            (place_of "place" [0; 1; 2; 3]%nat) [] 112%N (u "lace")).
  - reflexivity.
  - vm_compute. reflexivity.
Defined.

(** X15, the witness: a cache hit, an empty text and a review whose result
    cannot be saved, one after the other. *)
Lemma results_and_errors_source_witness :
  let db := table_with "R1" "Great service" in
  let data := sequential_batch_of three_reviews in
  ∃ o, run_response (smart_batch_analyze offline_engine tick db data) = Success o
       ∧ (∀ en, en ∈ results o →
            entry_source offline_engine db false three_reviews en)
       ∧ (∀ er, er ∈ default [] (errors o) →
            error_source offline_engine db false three_reviews er)
       ∧ run_engine_calls (smart_batch_analyze offline_engine tick db data)
         = todo_from db false 0 three_reviews.
Proof.
  intros db data. eexists. split; [vm_compute; reflexivity|].
  eapply (results_and_errors_source offline_engine tick db data).
  vm_compute. reflexivity.
Defined.

(** X16, the witness: the same reviews in parallel, without a client, on
    a server whose [print] returns for them. *)
Lemma whole_batch_failure_witness :
  let db := table_with "R1" "Great service" in
  let data := batch_of three_reviews in
  let todo := todo_from db false 0 three_reviews in
  let run := smart_batch_endpoint offline_engine digit_limit_print tick db data in
  run_response run = Failure (exn_str missing_reviewer_name)
  ∧ ((three_reviews = []
      ∧ exn_str missing_reviewer_name = u "reviews array required")
     ∨ (three_reviews ≠ []
        ∧ (∃ e, digit_limit_print todo = Some e
                ∧ exn_str missing_reviewer_name = exn_str e)
        ∧ run_engine_calls run = []
        ∧ run_db run = db)
     ∨ (three_reviews ≠ []
        ∧ digit_limit_print todo = None
        ∧ default true (rq_parallel_processing data) = true
        ∧ exn_str missing_reviewer_name = exn_str missing_reviewer_name
        ∧ ∃ i rq r,
            todo !! i = Some rq
            ∧ offline_engine i rq = Ok r
            ∧ sr_reviewer_name r = None)).
Proof.
  intros db data todo run. split; [vm_compute; reflexivity|].
  apply (whole_batch_failure offline_engine digit_limit_print tick db data).
  vm_compute. reflexivity.
Defined.

(** X16, at a rating of more than 4300 digits: the [print] raises
    [ValueError] and the batch fails before the engine is called. *)
Lemma rating_beyond_the_digit_limit (rating : Z) :
  10 ^ 4300 <= Z.abs rating →
  let db := table_with "R1" "Great service" in
  let run := smart_batch_endpoint offline_engine digit_limit_print tick db
               (batch_of [review_rated rating]) in
  (∃ e, run_response run = Failure (exn_str e) ∧ exn_cls e = ValueError)
  ∧ run_engine_calls run = []
  ∧ run_db run = db.
Proof.
  intros Hbig db run. subst run. rewrite smart_batch_endpoint_run.
  cbn [batch_of rq_reviews rq_force_reanalyze default from_option id].
  assert (todo_from db false 0 [review_rated rating]
          = [request_of 0 (review_rated rating)]) as -> by reflexivity.
  unfold digit_limit_print.
  cbn [forallb request_of ar_rating review_rated in_rating default
       from_option id].
  rewrite (proj2 (Z.ltb_ge _ _) Hbig). cbn [andb].
  split_and!; [|done|done]. eexists. by split.
Qed.


(** X18, the witness: three reviews, one of them without a text. *)
Lemma batch_outcome_partition_witness :
  let db := table_with "R1" "Great service" in
  let data := sequential_batch_of three_reviews in
  ∃ o, run_response (smart_batch_analyze offline_engine tick db data) = Success o
       ∧ length (without_text three_reviews) = 1%nat
       ∧ (total_reviews o
          = from_cache o + newly_analyzed o
            + length (without_text (default [] (rq_reviews data))))%nat.
Proof.
  intros db data. eexists. split; [vm_compute; reflexivity|].
  split; [reflexivity|].
  eapply (batch_outcome_partition offline_engine tick db data).
  vm_compute. reflexivity.
Defined.


(** X20, the witness: the fallback on a complaint with rating 2. *)
Lemma fallback_result_cannot_be_saved_witness :
  ∃ r, fallback_analysis ascii_lower tick (u "pelayanan lambat") 2
                         (Some (u "R3")) [] = Ok r
       ∧ save_analysis (table_with "R1" "Great service") r
         = Raise missing_reviewer_name.
Proof.
  eexists. split; [vm_compute; reflexivity|].
  apply (fallback_result_cannot_be_saved ascii_lower
           (table_with "R1" "Great service") tick (u "pelayanan lambat") 2
           (Some (u "R3")) []).
  - reflexivity.
  - vm_compute. reflexivity.
Defined.


(** X10, the witness: rating 2 without a client. *)
Lemma analyze_with_github_returns_in_range_witness :
  ∃ r,
    analyze_with_github ascii_lower (λ _, Raise (Exn JSONDecodeError [])) None
                        tick tick (u "pelayanan lambat") 2 (Some (u "R3"))
                        None None false = Ok r
    ∧ match remote_analysis (λ _, Raise (Exn JSONDecodeError [])) None tick
                            (u "pelayanan lambat") 2 (Some (u "R3"))
                            None None false with
      | Ok r' => r = r' ∧ sr_source r = u "github_models"
      | Raise e =>
          fallback_analysis ascii_lower tick (u "pelayanan lambat") 2
                            (Some (u "R3")) (exn_str e) = Ok r
          ∧ sr_source r = u "rule_based_fallback"
          ∧ sr_note r = Some (fallback_note (exn_str e))
          ∧ ((None : Client) = None → e = not_initialized)
      end.
Proof.
  apply (analyze_with_github_returns_in_range ascii_lower
           (λ _, Raise (Exn JSONDecodeError [])) None tick tick
           (u "pelayanan lambat") 2 (Some (u "R3")) None None false).
  vm_compute. discriminate.
Defined.

(** X14, the witness: an answer with the score 7.5. *)
Lemma remote_result_unchecked_and_savable_witness :
  let json_loads : str → result json := λ _, Ok eager_answer in
  ∃ r,
    remote_analysis json_loads eager_client tick (u "mantap") 5 (Some (u "R1"))
                    None None false = Ok r
    ∧ sr_sentiment_score r = JFloat 7.5
    ∧ (∃ complete raw doc,
          eager_client = Some complete
          ∧ complete (build_prompt (u "mantap") 5) = Content raw
          ∧ json_loads (strip_fences (strip raw)) = Ok doc
          ∧ getitem doc (u "sentiment") = Ok (sr_sentiment r)
          ∧ getitem doc (u "sentiment_score") = Ok (sr_sentiment_score r)
          ∧ getitem doc (u "themes") = Ok (sr_themes r)
          ∧ getitem doc (u "analysis_reasons") = Ok (sr_analysis_reasons r)
          ∧ getitem doc (u "ai_suggestions") = Ok (sr_ai_suggestions r))
    ∧ sr_reviewer_name r = Some None
    ∧ ∃ saved, save_analysis (table_with "R1" "Great service") r = Ok saved.
Proof.
  intros json_loads. eexists. split; [vm_compute; reflexivity|].
  split; [reflexivity|].
  eapply (remote_result_unchecked_and_savable json_loads
            (table_with "R1" "Great service") eager_client tick (u "mantap") 5
            (Some (u "R1")) None None false).
  vm_compute. reflexivity.
Defined.

End MoreExamples.
